(** * OpenDelek: the request facade of [main.py]

    A shallow embedding of the [OpenDelek] class and of the command-line
    entry point [main] of [src/main.py], and the properties of the request
    life cycle (compliance check, orchestration, audit log, error
    containment) and of the health check.

    Python objects that the facade only passes around (the user context,
    the orchestrator's result, the three collaborators) are kept abstract:
    a value of those types is the object itself (its identity), and whatever
    it contains lives in the collaborators' state, which the facade never
    reads or writes. *)

From Stdlib Require Import String Ascii List NArith ZArith Bool Lia.
From stdpp Require Import base option gmap strings list fin_maps.

Local Open Scope string_scope.
Local Open Scope list_scope.

(** ** Exceptions and outcomes *)

(** An instance of (a subclass of) Python's [Exception]: its class name
    and the text [str(e)] gives.  The system-exiting exceptions
    ([KeyboardInterrupt], [SystemExit]) are not instances of [Exception]
    and are outside the model. *)
Record exn : Type := Exn { exn_type : string; exn_str : string }.

(** What evaluating the unbound global [name] raises. *)
Definition NameError (name : string) : exn :=
  Exn "NameError" ("name '" +:+ name +:+ "' is not defined").

(** What reading the missing attribute [attr] of the module [modname]
    raises. *)
Definition AttributeError_module (modname attr : string) : exn :=
  Exn "AttributeError"
      ("module '" +:+ modname +:+ "' has no attribute '" +:+ attr +:+ "'").

(** What reading the attribute [attr] raises on an [OpenDelek] instance
    that does not have it (yet). *)
Definition AttributeError_object (attr : string) : exn :=
  Exn "AttributeError"
      ("'OpenDelek' object has no attribute '" +:+ attr +:+ "'").

(** A call either returns a value or raises. *)
Inductive outcome (A : Type) : Type :=
| Ret (a : A)
| Raise (e : exn).
Arguments Ret {A} a.
Arguments Raise {A} e.

(** ** The module's global names

    [main.py] imports [sys], [logging], [Path], [Dict], [Any] and the three
    collaborator classes at its top (lines 67-78).  The names [uuid] and
    [datetime], which [process_request] (line 170) and [health_check]
    (line 183) look up when they run, are bound in one place only, lines
    227-230:
<<
    if __name__ == "__main__":
        import datetime
        import uuid
        sys.exit(main())
>>
    so they are bound to the two standard modules when the file is run as
    a script, and are not bound at all when it is imported
    ([from main import OpenDelek], as the tests and the README do). *)

Inductive uuid_binding : Type :=
| UuidUnbound            (* the name [uuid] is not a global of the module *)
| UuidModule.            (* bound to the standard module [uuid] *)

Inductive datetime_binding : Type :=
| DatetimeUnbound        (* the name [datetime] is not a global *)
| DatetimeModule         (* bound to the standard module [datetime],
                            which has no attribute [now] *)
| DatetimeClass.         (* bound to the class [datetime.datetime]; the
                            source never does this, a host that assigns
                            [main.datetime] can *)

Record module_globals : Type := Globals {
  g_uuid : uuid_binding;
  g_datetime : datetime_binding
}.

(** The globals after [python main.py] has run the [__main__] block. *)
Definition globals_run_as_script : module_globals :=
  Globals UuidModule DatetimeModule.

(** The globals after [import main]. *)
Definition globals_imported : module_globals :=
  Globals UuidUnbound DatetimeUnbound.

(** ** [uuid.uuid4] and [str] of a UUID

    Modelled from Python's standard library ([uuid.py]): [uuid4()] is
    [UUID(bytes=os.urandom(16), version=4)]; the constructor clears and sets
    the variant and version bits of the 128-bit integer, and [str] prints
    it as 32 lower-case hexadecimal digits in groups 8-4-4-4-12. *)

Definition uuid_of_random (r : N) : N :=
  let i := N.land r (N.ones 128) in
  let i := N.land i (N.lxor (N.ones 128) (N.shiftl 0xc000 48)) in
  let i := N.lor i (N.shiftl 0x8000 48) in
  let i := N.land i (N.lxor (N.ones 128) (N.shiftl 0xf000 64)) in
  N.lor i (N.shiftl 4 76).

Definition hex_digit (n : N) : ascii :=
  match N.land n 15 with
  | 0 => "0" | 1 => "1" | 2 => "2" | 3 => "3" | 4 => "4" | 5 => "5"
  | 6 => "6" | 7 => "7" | 8 => "8" | 9 => "9" | 10 => "a" | 11 => "b"
  | 12 => "c" | 13 => "d" | 14 => "e" | _ => "f"
  end%N%char.

(** The [k] lowest hexadecimal digits of [n], most significant first. *)
Fixpoint hex_digits (k : nat) (n : N) : string :=
  match k with
  | O => ""
  | S k' => String (hex_digit (N.shiftr n (4 * N.of_nat k'))) (hex_digits k' n)
  end.

Definition uuid_str (u : N) : string :=
  hex_digits 8 (N.shiftr u 96) +:+ "-" +:+
  hex_digits 4 (N.shiftr u 80) +:+ "-" +:+
  hex_digits 4 (N.shiftr u 64) +:+ "-" +:+
  hex_digits 4 (N.shiftr u 48) +:+ "-" +:+
  hex_digits 12 u.

(** ** Records exchanged with the collaborators *)

(** Modelled from the spec: the class of the object [validate_request]
    returns is defined in [core/compliance.py], which is not part of the
    sources; the facade reads its attributes [is_compliant] and [reason].
    The spec gives it "a boolean compliance flag and an optional reason
    string". *)
Record ComplianceResult : Type := {
  is_compliant : bool;
  reason : option string
}.

(** What the replacement field [{compliance_result.reason}] of the
    f-string on line 144 prints: the string itself, or [None]. *)
Definition format_reason (r : option string) : string :=
  match r with
  | Some s => s
  | None => "None"
  end.

(** What [process_request] hands back: a dict the facade built itself
    (string keys, string values), or the very object [execute_task]
    returned. *)
Inductive response (TaskResult : Type) : Type :=
| Dict (d : gmap string string)
| Object (r : TaskResult).
Arguments Dict {TaskResult} d.
Arguments Object {TaskResult} r.

(** The dict [health_check] builds: exactly the keys ["status"],
    ["components"] and ["timestamp"]. *)
Record HealthReport : Type := {
  status : string;
  components : gmap string bool;
  timestamp : string
}.

(** ** The world the facade runs in *)

Section Facade.

(** The objects the facade passes around without looking inside. *)
Context {UserContext TaskResult Config Compliance Orchestrator : Type}.
(** The state of everything outside the facade: the collaborators' own
    fields, the objects they share with the caller, the database. *)
Context {CollabState : Type}.

(** The instance attributes of an [OpenDelek] object.  An attribute is
    [None] until [__init__] assigns it. *)
Record OpenDelek : Type := {
  config : option Config;
  compliance_manager : option Compliance;
  orchestrator : option Orchestrator
}.

Definition OpenDelek_blank : OpenDelek :=
  {| config := None; compliance_manager := None; orchestrator := None |}.

(** What the facade does that an observer outside can see: the calls it
    makes to its collaborators with their arguments, the assignments to
    its own attributes, and what it logs and prints. *)
Inductive event : Type :=
| NewSnowflakeConfig (config_path : string)
| NewComplianceManager (cfg : Config)
| NewDelekOrchestrator (cfg : Config) (cm : Compliance)
| CallValidateRequest (cm : Compliance) (user_input : string)
    (user_context : UserContext)
| CallExecuteTask (o : Orchestrator) (user_input : string)
    (user_context : UserContext) (compliance_context : ComplianceResult)
| CallLogInteraction (cm : Compliance) (user_context : UserContext)
    (request : string) (resp : TaskResult) (compliance_status : string)
| CallTestConnection (cfg : Config)
| CallTestCortexAi (o : Orchestrator)
| CallComplianceHealthCheck (cm : Compliance)
| CallTestContainers (o : Orchestrator)
| SetAttr (attr : string)
| LoggerInfo (msg : string)
| LoggerInfoHealth (health : HealthReport)
| LoggerError (msg : string)
| PrintBanner
| PrintReady
| PrintFailed (msg : string).

Record world : Type := World {
  self : OpenDelek;            (* the facade instance *)
  collab : CollabState;        (* everything the collaborators own *)
  trace : list event;          (* what the facade has done so far *)
  urandom_reads : nat;         (* how many times [os.urandom] was read *)
  clock_reads : nat            (* how many times the clock was read *)
}.

(** The collaborator classes, which [main.py] imports from
    [config.settings], [core.compliance] and [core.orchestrator]; those
    modules are not part of the sources, so the classes are parameters: any
    constructor or method may change the collaborators' state, and may
    raise.  The two remaining fields are the operating system's random
    source and clock, as sequences of readings. *)
Record collaborators : Type := {
  SnowflakeConfig : string -> CollabState -> outcome Config * CollabState;
  ComplianceManager : Config -> CollabState -> outcome Compliance * CollabState;
  DelekOrchestrator :
    Config -> Compliance -> CollabState -> outcome Orchestrator * CollabState;
  validate_request :
    Compliance -> string -> UserContext ->
    CollabState -> outcome ComplianceResult * CollabState;
  execute_task :
    Orchestrator -> string -> UserContext -> ComplianceResult ->
    CollabState -> outcome TaskResult * CollabState;
  log_interaction :
    Compliance -> UserContext -> string -> TaskResult -> string ->
    CollabState -> outcome unit * CollabState;
  test_connection : Config -> CollabState -> outcome bool * CollabState;
  test_cortex_ai : Orchestrator -> CollabState -> outcome bool * CollabState;
  (* [ComplianceManager.health_check] *)
  compliance_health_check :
    Compliance -> CollabState -> outcome bool * CollabState;
  test_containers : Orchestrator -> CollabState -> outcome bool * CollabState;
  os_urandom : nat -> N;
  now_isoformat : nat -> string
}.

(** ** A state and exception monad *)

Definition M (A : Type) : Type := world -> outcome A * world.

Definition ret {A} (a : A) : M A := fun w => (Ret a, w).

Definition raise {A} (e : exn) : M A := fun w => (Raise e, w).

Definition bind {A B} (m : M A) (k : A -> M B) : M B :=
  fun w =>
    match m w with
    | (Ret a, w') => k a w'
    | (Raise e, w') => (Raise e, w')
    end.

(** [try: m  except Exception as e: h e] *)
Definition try_except {A} (m : M A) (h : exn -> M A) : M A :=
  fun w =>
    match m w with
    | (Ret a, w') => (Ret a, w')
    | (Raise e, w') => h e w'
    end.

Notation "'let*' x := c1 'in' c2" := (bind c1 (fun x => c2))
  (at level 10, x name, c1 at level 100, c2 at level 200).
Notation "c1 ';;;' c2" := (bind c1 (fun _ => c2))
  (at level 100, c2 at level 200, right associativity).

Definition emit (ev : event) : M unit :=
  fun w =>
    (Ret tt,
     World (self w) (collab w) (trace w ++ [ev])
           (urandom_reads w) (clock_reads w)).

(** Run a collaborator's code on the collaborators' state. *)
Definition call {A} (f : CollabState -> outcome A * CollabState) : M A :=
  fun w =>
    let (o, s) := f (collab w) in
    (o, World (self w) s (trace w) (urandom_reads w) (clock_reads w)).

(** The world after the facade has made the call [ev] and the collaborator
    has left its state as [s]. *)
Definition after_call (w : world) (ev : event) (s : CollabState) : world :=
  World (self w) s (trace w ++ [ev]) (urandom_reads w) (clock_reads w).

(** The world after the facade has logged or printed [ev]. *)
Definition after_event (w : world) (ev : event) : world :=
  after_call w ev (collab w).

(** [self.attr] *)
Definition getattr {A} (attr : string) (proj : OpenDelek -> option A) : M A :=
  fun w =>
    match proj (self w) with
    | Some a => (Ret a, w)
    | None => (Raise (AttributeError_object attr), w)
    end.

(** [self.attr = v] *)
Definition setattr (attr : string) (upd : OpenDelek -> OpenDelek) : M unit :=
  fun w =>
    (Ret tt,
     World (upd (self w)) (collab w) (trace w ++ [SetAttr attr])
           (urandom_reads w) (clock_reads w)).

Definition set_config (v : Config) (o : OpenDelek) : OpenDelek :=
  {| config := Some v;
     compliance_manager := compliance_manager o;
     orchestrator := orchestrator o |}.

Definition set_compliance_manager (v : Compliance) (o : OpenDelek) : OpenDelek :=
  {| config := config o;
     compliance_manager := Some v;
     orchestrator := orchestrator o |}.

Definition set_orchestrator (v : Orchestrator) (o : OpenDelek) : OpenDelek :=
  {| config := config o;
     compliance_manager := compliance_manager o;
     orchestrator := Some v |}.

Variable g : module_globals.
Variable env : collaborators.

(** [str(uuid.uuid4())]: the global [uuid] is looked up when the
    expression is evaluated. *)
Definition str_uuid_uuid4 : M string :=
  match g_uuid g with
  | UuidUnbound => raise (NameError "uuid")
  | UuidModule =>
      fun w =>
        (Ret (uuid_str (uuid_of_random (os_urandom env (urandom_reads w)))),
         World (self w) (collab w) (trace w)
               (S (urandom_reads w)) (clock_reads w))
  end.

(** [datetime.now().isoformat()]: the global [datetime] is looked up when
    the expression is evaluated, then its attribute [now]. *)
Definition datetime_now_isoformat : M string :=
  match g_datetime g with
  | DatetimeUnbound => raise (NameError "datetime")
  | DatetimeModule => raise (AttributeError_module "datetime" "now")
  | DatetimeClass =>
      fun w =>
        (Ret (now_isoformat env (clock_reads w)),
         World (self w) (collab w) (trace w)
               (urandom_reads w) (S (clock_reads w)))
  end.

(** ** Calls to the collaborators, recorded in the trace *)

Definition new_SnowflakeConfig (config_path : string) : M Config :=
  emit (NewSnowflakeConfig config_path) ;;;
  call (SnowflakeConfig env config_path).

Definition new_ComplianceManager (cfg : Config) : M Compliance :=
  emit (NewComplianceManager cfg) ;;;
  call (ComplianceManager env cfg).

Definition new_DelekOrchestrator (cfg : Config) (cm : Compliance)
  : M Orchestrator :=
  emit (NewDelekOrchestrator cfg cm) ;;;
  call (DelekOrchestrator env cfg cm).

Definition call_validate_request (cm : Compliance) (user_input : string)
    (user_context : UserContext) : M ComplianceResult :=
  emit (CallValidateRequest cm user_input user_context) ;;;
  call (validate_request env cm user_input user_context).

Definition call_execute_task (o : Orchestrator) (user_input : string)
    (user_context : UserContext) (compliance_context : ComplianceResult)
  : M TaskResult :=
  emit (CallExecuteTask o user_input user_context compliance_context) ;;;
  call (execute_task env o user_input user_context compliance_context).

Definition call_log_interaction (cm : Compliance) (user_context : UserContext)
    (request : string) (resp : TaskResult) (compliance_status : string)
  : M unit :=
  emit (CallLogInteraction cm user_context request resp compliance_status) ;;;
  call (log_interaction env cm user_context request resp compliance_status).

Definition call_test_connection (cfg : Config) : M bool :=
  emit (CallTestConnection cfg) ;;; call (test_connection env cfg).

Definition call_test_cortex_ai (o : Orchestrator) : M bool :=
  emit (CallTestCortexAi o) ;;; call (test_cortex_ai env o).

Definition call_compliance_health_check (cm : Compliance) : M bool :=
  emit (CallComplianceHealthCheck cm) ;;; call (compliance_health_check env cm).

Definition call_test_containers (o : Orchestrator) : M bool :=
  emit (CallTestContainers o) ;;; call (test_containers env o).

(** ** The class [OpenDelek] *)

(** [OpenDelek.__init__] (lines 101-122). *)
Definition __init__ (config_path : string) : M unit :=
  emit (LoggerInfo "Initializing OpenDelek Corporate AI Assistant") ;;;
  try_except
    (let* cfg := new_SnowflakeConfig config_path in
     setattr "config" (set_config cfg) ;;;
     let* cfg1 := getattr "config" config in
     let* cm := new_ComplianceManager cfg1 in
     setattr "compliance_manager" (set_compliance_manager cm) ;;;
     let* cfg2 := getattr "config" config in
     let* cm2 := getattr "compliance_manager" compliance_manager in
     let* o := new_DelekOrchestrator cfg2 cm2 in
     setattr "orchestrator" (set_orchestrator o) ;;;
     emit (LoggerInfo "OpenDelek initialization completed successfully"))
    (fun e =>
       emit (LoggerError ("Failed to initialize OpenDelek: " +:+ exn_str e)) ;;;
       raise e).

(** [OpenDelek(config_path)]: a new instance without attributes, then
    [__init__] on it. *)
Definition new_OpenDelek (config_path : string) : M unit :=
  fun w =>
    __init__ config_path
      (World OpenDelek_blank (collab w) (trace w)
             (urandom_reads w) (clock_reads w)).

(** The dict of lines 142-146. *)
Definition rejection_record (cr : ComplianceResult) : gmap string string :=
  {[ "status" := "rejected";
     "message" :=
       "Request violates corporate policy: " +:+ format_reason (reason cr);
     "compliance_status" := "NON_COMPLIANT" ]}.

(** The dict of lines 167-171. *)
Definition error_record (error_id : string) : gmap string string :=
  {[ "status" := "error";
     "message" := "An error occurred processing your request";
     "error_id" := error_id ]}.

(** The [try] suite of [process_request] (lines 136-163). *)
Definition process_request_try (user_input : string)
    (user_context : UserContext) : M (response TaskResult) :=
  let* cm := getattr "compliance_manager" compliance_manager in
  let* compliance_result :=
    call_validate_request cm user_input user_context in
  if negb (is_compliant compliance_result) then
    ret (Dict (rejection_record compliance_result))
  else
    let* o := getattr "orchestrator" orchestrator in
    let* result :=
      call_execute_task o user_input user_context compliance_result in
    let* cm1 := getattr "compliance_manager" compliance_manager in
    call_log_interaction cm1 user_context user_input result "COMPLIANT" ;;;
    ret (Object result).

(** The [except Exception as e] suite of [process_request] (lines
    165-171). *)
Definition process_request_except (e : exn) : M (response TaskResult) :=
  emit (LoggerError ("Error processing request: " +:+ exn_str e)) ;;;
  let* error_id := str_uuid_uuid4 in
  ret (Dict (error_record error_id)).

(** The three places where a collaborator can raise inside the [try]
    suite. *)
Inductive raises_in_try (ui : string) (uc : UserContext) (w : world)
  : exn -> world -> Prop :=
| RaisesValidate cm e s1 :
    compliance_manager (self w) = Some cm ->
    validate_request env cm ui uc (collab w) = (Raise e, s1) ->
    raises_in_try ui uc w e (after_call w (CallValidateRequest cm ui uc) s1)
| RaisesExecute cm o cr s1 e s2 :
    compliance_manager (self w) = Some cm ->
    orchestrator (self w) = Some o ->
    validate_request env cm ui uc (collab w) = (Ret cr, s1) ->
    is_compliant cr = true ->
    execute_task env o ui uc cr s1 = (Raise e, s2) ->
    raises_in_try ui uc w e
      (after_call (after_call w (CallValidateRequest cm ui uc) s1)
                  (CallExecuteTask o ui uc cr) s2)
| RaisesLog cm o cr s1 r s2 e s3 :
    compliance_manager (self w) = Some cm ->
    orchestrator (self w) = Some o ->
    validate_request env cm ui uc (collab w) = (Ret cr, s1) ->
    is_compliant cr = true ->
    execute_task env o ui uc cr s1 = (Ret r, s2) ->
    log_interaction env cm uc ui r "COMPLIANT" s2 = (Raise e, s3) ->
    raises_in_try ui uc w e
      (after_call
         (after_call (after_call w (CallValidateRequest cm ui uc) s1)
                     (CallExecuteTask o ui uc cr) s2)
         (CallLogInteraction cm uc ui r "COMPLIANT") s3).

(** [OpenDelek.process_request] (lines 124-171). *)
Definition process_request (user_input : string) (user_context : UserContext)
  : M (response TaskResult) :=
  try_except (process_request_try user_input user_context)
             process_request_except.

(** [OpenDelek.health_check] (lines 173-184).  The dict display is
    evaluated from left to right: the four probes in the order written,
    then the time stamp. *)
Definition health_check : M HealthReport :=
  let* cfg := getattr "config" config in
  let* snowflake_connection := call_test_connection cfg in
  let* o := getattr "orchestrator" orchestrator in
  let* cortex_ai := call_test_cortex_ai o in
  let* cm := getattr "compliance_manager" compliance_manager in
  let* compliance_system := call_compliance_health_check cm in
  let* o1 := getattr "orchestrator" orchestrator in
  let* container_services := call_test_containers o1 in
  let* now := datetime_now_isoformat in
  ret {| status := "healthy";
         components :=
           {[ "snowflake_connection" := snowflake_connection;
              "cortex_ai" := cortex_ai;
              "compliance_system" := compliance_system;
              "container_services" := container_services ]};
         timestamp := now |}.

(** The world after the four probe calls of [health_check], the
    collaborators' state going through [s1], [s2], [s3], [s4]. *)
Definition after_probes (w : world) (cfg : Config) (o : Orchestrator)
    (cm : Compliance) (s1 s2 s3 s4 : CollabState) : world :=
  after_call
    (after_call
       (after_call (after_call w (CallTestConnection cfg) s1)
                   (CallTestCortexAi o) s2)
       (CallComplianceHealthCheck cm) s3)
    (CallTestContainers o) s4.

(** ** The entry point *)

Definition default_config_path : string := "config/snowflake_config.toml".

(** The body of [main] (lines 186-225) over what its two calls do:
    [construct] is [OpenDelek()] (line 199) and [check] is
    [delek.health_check()] (line 202).  Both are looked up when [main]
    runs, the class under the global name [OpenDelek] and the method as an
    attribute of the instance, so a host can bind them otherwise, as the
    tests of the repository do with the collaborator classes.  The value
    is the exit code that [sys.exit(main())] hands to the operating
    system. *)
Definition main_over (construct : M unit) (check : M HealthReport) : M Z :=
  emit PrintBanner ;;;
  try_except
    (construct ;;;
     let* health := check in
     emit (LoggerInfoHealth health) ;;;
     if negb (String.eqb (status health) "healthy") then
       emit (LoggerError "System health check failed") ;;;
       ret 1%Z
     else
       emit PrintReady ;;;
       ret 0%Z)
    (fun e =>
       emit (LoggerError ("Failed to start OpenDelek: " +:+ exn_str e)) ;;;
       emit (PrintFailed ("Failed to start OpenDelek: " +:+ exn_str e)) ;;;
       ret 1%Z).

(** [main] as the module binds the names: the class [OpenDelek] of lines
    92-184 and its own [health_check]. *)
Definition main : M Z :=
  main_over (new_OpenDelek default_config_path) health_check.

End Facade.

(** ** Observations on traces *)

Section Observations.

Context {UserContext TaskResult Config Compliance Orchestrator : Type}.

Abbreviation event := (@event UserContext TaskResult Config Compliance Orchestrator).

Definition is_execute_task (ev : event) : bool :=
  match ev with
  | CallExecuteTask _ _ _ _ => true
  | _ => false
  end.

(** A call of [log_interaction] with the given [compliance_status]. *)
Definition is_log_interaction (compliance_status : string) (ev : event) : bool :=
  match ev with
  | CallLogInteraction _ _ _ _ s => String.eqb s compliance_status
  | _ => false
  end.

Definition is_setattr (attr : string) (ev : event) : bool :=
  match ev with
  | SetAttr a => String.eqb a attr
  | _ => false
  end.

Definition is_any_setattr (ev : event) : bool :=
  match ev with
  | SetAttr _ => true
  | _ => false
  end.

(** How many events of [t] satisfy [p]. *)
Definition count (p : event -> bool) (t : list event) : nat :=
  length (List.filter p t).

End Observations.

(** ** What a computation leaves alone *)

Section Frame.

Context {UserContext TaskResult Config Compliance Orchestrator : Type}.
Context {CollabState : Type}.

(** [m] assigns no attribute of the facade: whatever the outcome, the
    instance is as before, and the events added contain no [SetAttr]. *)
Definition assigns_nothing {A}
    (m : @M UserContext TaskResult Config Compliance Orchestrator
            CollabState A) : Prop :=
  forall w,
    self (snd (m w)) = self w /\
    exists t,
      trace (snd (m w)) = trace w ++ t /\
      count is_any_setattr t = 0.

End Frame.

(** ** A test double

    Collaborators that answer as scripted, in the manner of the
    [unittest.mock] objects of [tests/unit/test_main.py]: the user context
    and the orchestrator's result are dicts of strings, the collaborators'
    state is the audit log that [log_interaction] appends to. *)

Module Double.

Record script : Type := {
  on_construct : option exn;            (* [SnowflakeConfig(...)] raises? *)
  on_validate : outcome ComplianceResult;
  on_execute : outcome (gmap string string);
  on_log : option exn;                  (* [log_interaction] raises? *)
  on_test_connection : outcome bool;
  on_test_cortex_ai : outcome bool;
  on_health_check : outcome bool;
  on_test_containers : outcome bool
}.

Definition audit_log : Type := list (string * string).

Definition answer {A} (o : outcome A) (s : audit_log) : outcome A * audit_log :=
  (o, s).

Definition collaborators_of (sc : script)
  : @collaborators (gmap string string) (gmap string string)
                   string nat nat audit_log :=
  {| SnowflakeConfig := fun path s =>
       match on_construct sc with
       | Some e => (Raise e, s)
       | None => (Ret path, s)
       end;
     ComplianceManager := fun _ => answer (Ret 1);
     DelekOrchestrator := fun _ _ => answer (Ret 2);
     validate_request := fun _ _ _ => answer (on_validate sc);
     execute_task := fun _ _ _ _ => answer (on_execute sc);
     log_interaction := fun _ _ request _ compliance_status s =>
       match on_log sc with
       | Some e => (Raise e, s)
       | None => (Ret tt, s ++ [(request, compliance_status)])
       end;
     test_connection := fun _ => answer (on_test_connection sc);
     test_cortex_ai := fun _ => answer (on_test_cortex_ai sc);
     compliance_health_check := fun _ => answer (on_health_check sc);
     test_containers := fun _ => answer (on_test_containers sc);
     os_urandom := fun n => (N.of_nat n * 0x9e3779b97f4a7c15f39cc0605cedc835)%N;
     now_isoformat := fun _ => "2024-01-01T00:00:00.000000" |}.

(** The user context of the spec's concrete scenarios. *)
Definition user_context : gmap string string :=
  {[ "user_id" := "u1"; "role" := "DELEK_USER" ]}.

Definition user_input : string := "list open invoices".

Definition non_compliant : ComplianceResult :=
  {| is_compliant := false; reason := Some "contains restricted keyword" |}.

Definition compliant : ComplianceResult :=
  {| is_compliant := true; reason := None |}.

Definition completed : gmap string string :=
  {[ "status" := "completed"; "result" := "3 invoices found" ]}.

(** Everything answers; the request is compliant and all probes succeed. *)
Definition all_well : script :=
  {| on_construct := None;
     on_validate := Ret compliant;
     on_execute := Ret completed;
     on_log := None;
     on_test_connection := Ret true;
     on_test_cortex_ai := Ret true;
     on_health_check := Ret true;
     on_test_containers := Ret true |}.

Definition rejecting : script :=
  {| on_construct := None;
     on_validate := Ret non_compliant;
     on_execute := Ret completed;
     on_log := None;
     on_test_connection := Ret true;
     on_test_cortex_ai := Ret true;
     on_health_check := Ret true;
     on_test_containers := Ret true |}.

Definition boom : exn := Exn "RuntimeError" "boom".

Definition validate_fails : script :=
  {| on_construct := None;
     on_validate := Raise boom;
     on_execute := Ret completed;
     on_log := None;
     on_test_connection := Ret true;
     on_test_cortex_ai := Ret true;
     on_health_check := Ret true;
     on_test_containers := Ret true |}.

Definition execute_fails : script :=
  {| on_construct := None;
     on_validate := Ret compliant;
     on_execute := Raise boom;
     on_log := None;
     on_test_connection := Ret true;
     on_test_cortex_ai := Ret true;
     on_health_check := Ret true;
     on_test_containers := Ret true |}.

Definition log_fails : script :=
  {| on_construct := None;
     on_validate := Ret compliant;
     on_execute := Ret completed;
     on_log := Some boom;
     on_test_connection := Ret true;
     on_test_cortex_ai := Ret true;
     on_health_check := Ret true;
     on_test_containers := Ret true |}.

Definition cortex_down : script :=
  {| on_construct := None;
     on_validate := Ret compliant;
     on_execute := Ret completed;
     on_log := None;
     on_test_connection := Ret true;
     on_test_cortex_ai := Ret false;
     on_health_check := Ret true;
     on_test_containers := Ret true |}.

(** The request is compliant and the four probes answer as given. *)
Definition probes_scripted (p1 p2 p3 p4 : outcome bool) : script :=
  {| on_construct := None;
     on_validate := Ret compliant;
     on_execute := Ret completed;
     on_log := None;
     on_test_connection := p1;
     on_test_cortex_ai := p2;
     on_health_check := p3;
     on_test_containers := p4 |}.

Definition construction_fails : script :=
  {| on_construct := Some boom;
     on_validate := Ret compliant;
     on_execute := Ret completed;
     on_log := None;
     on_test_connection := Ret true;
     on_test_cortex_ai := Ret true;
     on_health_check := Ret true;
     on_test_containers := Ret true |}.

(** A constructed facade over the double, with nothing done yet. *)
Definition constructed
  : @world (gmap string string) (gmap string string) string nat nat audit_log :=
  World {| config := Some "config/snowflake_config.toml";
           compliance_manager := Some 1;
           orchestrator := Some 2 |}
        [] [] 0 0.

(** The state before any facade exists. *)
Definition fresh
  : @world (gmap string string) (gmap string string) string nat nat audit_log :=
  World OpenDelek_blank [] [] 0 0.

(** A [health_check] put in the place of the facade's own by a host: it
    calls nothing and returns [report]. *)
Definition reporting (report : HealthReport)
  : @M (gmap string string) (gmap string string) string nat nat audit_log
       HealthReport :=
  ret report.

(** A report that says the AI backend is down. *)
Definition degraded_report : HealthReport :=
  {| status := "degraded";
     components := {[ "snowflake_connection" := true;
                      "cortex_ai" := false;
                      "compliance_system" := true;
                      "container_services" := true ]};
     timestamp := "2024-01-01T00:00:00.000000" |}.

(** A host that has assigned [main.datetime = datetime.datetime] and
    [main.uuid = uuid] after importing the module. *)
Definition globals_patched : module_globals :=
  Globals UuidModule DatetimeClass.

End Double.

(** ** Kinds of events

    What each method of the facade is about: the constructor constructs,
    [process_request] talks to the request methods of its collaborators,
    [health_check] probes. *)

Section Kinds.

Context {UserContext TaskResult Config Compliance Orchestrator : Type}.
Context {CollabState : Type}.

Abbreviation event := (@event UserContext TaskResult Config Compliance Orchestrator).

Inductive kind : Type :=
| Construction      (* a collaborator class is instantiated *)
| Request           (* [validate_request], [execute_task], [log_interaction] *)
| Probe             (* one of the four health probes *)
| Assignment        (* [self.attr = ...] *)
| Logging           (* [logger.info], [logger.error] *)
| Printing.         (* [print] *)

Definition kind_of (ev : event) : kind :=
  match ev with
  | NewSnowflakeConfig _ | NewComplianceManager _ | NewDelekOrchestrator _ _ =>
      Construction
  | CallValidateRequest _ _ _ | CallExecuteTask _ _ _ _
  | CallLogInteraction _ _ _ _ _ => Request
  | CallTestConnection _ | CallTestCortexAi _ | CallComplianceHealthCheck _
  | CallTestContainers _ => Probe
  | SetAttr _ => Assignment
  | LoggerInfo _ | LoggerInfoHealth _ | LoggerError _ => Logging
  | PrintBanner | PrintReady | PrintFailed _ => Printing
  end.

Definition is_validate_request (ev : event) : bool :=
  match ev with
  | CallValidateRequest _ _ _ => true
  | _ => false
  end.

(** A call of [log_interaction], whatever its arguments. *)
Definition is_any_log_interaction (ev : event) : bool :=
  match ev with
  | CallLogInteraction _ _ _ _ _ => true
  | _ => false
  end.

Definition is_probe (ev : event) : bool :=
  match kind_of ev with
  | Probe => true
  | _ => false
  end.

Definition is_request (ev : event) : bool :=
  match kind_of ev with
  | Request => true
  | _ => false
  end.

Definition is_construction (ev : event) : bool :=
  match kind_of ev with
  | Construction => true
  | _ => false
  end.

Definition is_logger_error (ev : event) : bool :=
  match ev with
  | LoggerError _ => true
  | _ => false
  end.

Definition is_print_ready (ev : event) : bool :=
  match ev with
  | PrintReady => true
  | _ => false
  end.

(** Every event that [m] adds to the trace, whatever its outcome,
    satisfies [p]. *)
Definition emits_only {A} (p : event -> bool)
    (m : @M UserContext TaskResult Config Compliance Orchestrator
            CollabState A) : Prop :=
  forall w,
    exists t, trace (snd (m w)) = trace w ++ t /\ forallb p t = true.

(** The events of a request: request calls and the error log. *)
Definition request_or_error_log (ev : event) : bool :=
  is_request ev || is_logger_error ev.

(** The events of a construction. *)
Definition construction_event (ev : event) : bool :=
  match kind_of ev with
  | Construction | Assignment | Logging => true
  | _ => false
  end.

(** The four probe calls of [health_check], in the order of the dict
    display of lines 177-182. *)
Definition probe_calls (cfg : Config) (o : Orchestrator) (cm : Compliance)
  : list event :=
  [CallTestConnection cfg;
   CallTestCortexAi o;
   CallComplianceHealthCheck cm;
   CallTestContainers o].

End Kinds.

(** * The repository generator, [generate_repo.py] *)

Module Generator.

(** ** Paths

    A relative path, as the list of its components with the last one
    first: the head is the name of the file or directory, the tail is the
    path of the directory that holds it, and [[]] is the current
    directory. *)
Abbreviation path := (list string).

(** [Path(p).parent]; the parent of the current directory is itself. *)
Definition parent (p : path) : path := tail p.

(** The pieces of [s] between slashes, [cur] being the piece in
    progress. *)
Fixpoint pieces (s : string) (cur : string) : list string :=
  match s with
  | EmptyString => [cur]
  | String c s' =>
      if Ascii.eqb c "/" then cur :: pieces s' ""
      else pieces s' (cur +:+ String c "")
  end.

(** The components of a path given as text: [pathlib] drops empty
    pieces and pieces that are a single dot. *)
Definition parse_path (s : string) : path :=
  rev (List.filter (fun c => negb (String.eqb c "") && negb (String.eqb c "."))
                   (pieces s "")).

(** The path texts the model covers: relative, and every piece between
    slashes is a name, that is, not empty and neither [.] nor [..].  For
    these [pathlib] and the operating system see the same components; all
    the paths in the script are of this kind. *)
Definition plain (s : string) : bool :=
  forallb (fun c => negb (String.eqb c "") && negb (String.eqb c ".")
                    && negb (String.eqb c ".."))
          (pieces s "").

(** The path texts that name something on every POSIX file system and
    under every locale: plain, in ASCII without the NUL character, every
    component of at most 255 bytes (NAME_MAX), the whole text shorter than
    4096 bytes (PATH_MAX), and at most 100 components, which keeps the
    recursion of [mkdir(parents=True)] well within the interpreter's
    recursion limit.  Beyond these bounds [mkdir] and [open] raise
    ([ValueError], [OSError] with ENAMETOOLONG, [UnicodeEncodeError],
    [RecursionError]) where the model has no such error. *)
Definition portable (s : string) : bool :=
  plain s
  && forallb (fun c => (0 <? N_of_ascii c)%N && (N_of_ascii c <? 128)%N)
             (list_ascii_of_string s)
  && forallb (fun c => Nat.leb (String.length c) 255) (pieces s "")
  && Nat.ltb (String.length s) 4096
  && Nat.leb (length (pieces s "")) 100.

(** ** The file system under the current directory

    A POSIX file system that holds directories and regular files, all of
    them the process's own to read and write: no symbolic links, no
    permissions, no limit on space.  A regular file holds the text that
    was written to it. *)

Inductive node : Type :=
| Directory
| File (content : string).

(** The current directory itself is not stored: it always exists. *)
Definition node_at (fs : gmap path node) (p : path) : option node :=
  match p with
  | [] => Some Directory
  | _ => fs !! p
  end.

Inductive oserror : Type :=
| FileNotFoundError
| FileExistsError
| NotADirectoryError
| IsADirectoryError.

(** The operating system walks to the directory [p] from the current
    directory: [None] when [p] and all the directories above it are
    directories, else the error at the first component, from the top, that
    is missing or is a file. *)
Fixpoint resolve (fs : gmap path node) (p : path) : option oserror :=
  match p with
  | [] => None
  | _ :: above =>
      match resolve fs above with
      | Some e => Some e
      | None =>
          match fs !! p with
          | Some Directory => None
          | Some (File _) => Some NotADirectoryError
          | None => Some FileNotFoundError
          end
      end
  end.

(** [os.mkdir(p)] *)
Definition os_mkdir (fs : gmap path node) (p : path)
  : option oserror * gmap path node :=
  match p with
  | [] => (Some FileExistsError, fs)
  | _ :: above =>
      match resolve fs above with
      | Some e => (Some e, fs)
      | None =>
          match fs !! p with
          | Some _ => (Some FileExistsError, fs)
          | None => (None, <[p := Directory]> fs)
          end
      end
  end.

(** [Path(p).is_dir()] *)
Definition is_dir (fs : gmap path node) (p : path) : bool :=
  match resolve fs p with
  | None => true
  | Some _ => false
  end.

(** [Path(p).mkdir(parents=False, exist_ok=True)] *)
Definition mkdir_exist_ok (fs : gmap path node) (p : path)
  : option oserror * gmap path node :=
  match os_mkdir fs p with
  | (None, fs1) => (None, fs1)
  | (Some FileNotFoundError, fs1) => (Some FileNotFoundError, fs1)
  | (Some e, fs1) => if is_dir fs1 p then (None, fs1) else (Some e, fs1)
  end.

(** [Path(p).mkdir(parents=True, exist_ok=True)], modelled from Python's
    standard library ([pathlib.py]): try [os.mkdir]; on
    [FileNotFoundError] make the parent in the same manner and try once
    more; on any other error succeed if the path is a directory. *)
Fixpoint mkdir_parents (p : path) (fs : gmap path node)
  : option oserror * gmap path node :=
  match os_mkdir fs p with
  | (None, fs1) => (None, fs1)
  | (Some FileNotFoundError, fs1) =>
      match p with
      | [] => (Some FileNotFoundError, fs1)
      | _ :: above =>
          match mkdir_parents above fs1 with
          | (Some e, fs2) => (Some e, fs2)
          | (None, fs2) => mkdir_exist_ok fs2 p
          end
      end
  | (Some e, fs1) => if is_dir fs1 p then (None, fs1) else (Some e, fs1)
  end.

(** [open(p, 'w')], [write(content)] and the closing of the file. *)
Definition write_file (fs : gmap path node) (p : path) (content : string)
  : option oserror * gmap path node :=
  match resolve fs (parent p) with
  | Some e => (Some e, fs)
  | None =>
      match node_at fs p with
      | Some Directory => (Some IsADirectoryError, fs)
      | _ => (None, <[p := File content]> fs)
      end
  end.

(** ** The script *)

(** A line on standard output. *)
Inductive line : Type :=
| Opening                                  (* the heading and the rule *)
| CreatedDirectory (directory : string)
| CreatedFile (filepath : string)
| Blank
| Summary                                  (* lines 1018-1028 *)
| Closing.                                 (* lines 1042-1051 *)

Record disk : Type := Disk {
  files : gmap path node;
  stdout : list line
}.

(** The list [directories] of [create_directory_structure] (lines
    15-35). *)
Definition directories : list string :=
  ["config";
   "core";
   "agents";
   "tools";
   "containers/browser_service";
   "containers/document_service";
   "streamlit_app/components";
   "streamlit_app/styles";
   "sql/schema";
   "sql/procedures";
   "deployment/snowflake_native_app";
   "deployment/terraform";
   "tests/unit";
   "tests/integration";
   "tests/security";
   "tests/e2e";
   "tests/health";
   "docs";
   ".github/workflows"].

(** The loop of [create_directory_structure] (lines 37-39) over the
    directories left; an exception ends it. *)
Fixpoint create_directories (ds : list string) (d : disk)
  : option oserror * disk :=
  match ds with
  | [] => (None, d)
  | directory :: rest =>
      match mkdir_parents (parse_path directory) (files d) with
      | (Some e, fs) => (Some e, Disk fs (stdout d))
      | (None, fs) =>
          create_directories rest
            (Disk fs (stdout d ++ [CreatedDirectory directory]))
      end
  end.

(** [create_directory_structure] (lines 12-39). *)
Definition create_directory_structure (d : disk) : option oserror * disk :=
  create_directories directories d.

(** [create_file] (lines 41-46). *)
Definition create_file (filepath : string) (content : string) (d : disk)
  : option oserror * disk :=
  match mkdir_parents (parent (parse_path filepath)) (files d) with
  | (Some e, fs) => (Some e, Disk fs (stdout d))
  | (None, fs) =>
      match write_file fs (parse_path filepath) content with
      | (Some e, fs1) => (Some e, Disk fs1 (stdout d))
      | (None, fs1) => (None, Disk fs1 (stdout d ++ [CreatedFile filepath]))
      end
  end.

(** The paths that [generate_all_files] writes, in the order of its
    calls of [create_file] (lines 52-945). *)
Definition generated_paths : list string :=
  ["main.py";
   "requirements.txt";
   "config/__init__.py";
   "config/snowflake_config.toml";
   "core/__init__.py";
   "agents/__init__.py";
   "tools/__init__.py";
   "containers/browser_service/Dockerfile";
   "containers/browser_service/requirements.txt";
   "snowflake_setup.sql";
   ".github/workflows/ci-cd.yml";
   "README.md";
   "tests/__init__.py";
   "tests/conftest.py";
   "tests/unit/__init__.py";
   "tests/integration/__init__.py";
   "tests/security/__init__.py";
   "tests/unit/test_main.py";
   "LICENSE";
   ".gitignore"].

(** The files that are written empty (lines 332, 375-377, 845,
    878-880). *)
Definition written_empty (filepath : string) : bool :=
  bool_decide
    (filepath ∈ ["config/__init__.py"; "core/__init__.py";
                 "agents/__init__.py"; "tools/__init__.py";
                 "tests/__init__.py"; "tests/unit/__init__.py";
                 "tests/integration/__init__.py";
                 "tests/security/__init__.py"]).

(** The arguments of the calls of [create_file] in [generate_all_files].
    The texts of the files that are not empty, string literals of up to
    some two hundred lines each, are not reproduced: [text] gives the text
    written to each path. *)
Definition generated_files (text : string -> string)
  : list (string * string) :=
  map (fun filepath =>
         (filepath, if written_empty filepath then "" else text filepath))
      generated_paths.

(** Calls of [create_file] one after the other; an exception ends the
    sequence. *)
Fixpoint create_files (l : list (string * string)) (d : disk)
  : option oserror * disk :=
  match l with
  | [] => (None, d)
  | (filepath, content) :: rest =>
      match create_file filepath content d with
      | (Some e, d1) => (Some e, d1)
      | (None, d1) => create_files rest d1
      end
  end.

(** [generate_all_files] (lines 48-1028). *)
Definition generate_all_files (text : string -> string) (d : disk)
  : option oserror * disk :=
  match create_files (generated_files text) d with
  | (Some e, d1) => (Some e, d1)
  | (None, d1) => (None, Disk (files d1) (stdout d1 ++ [Summary]))
  end.

(** The script itself (lines 1030-1051). *)
Definition generate_repo (text : string -> string) (d : disk)
  : option oserror * disk :=
  match create_directory_structure
          (Disk (files d) (stdout d ++ [Opening])) with
  | (Some e, d1) => (Some e, d1)
  | (None, d1) =>
      match generate_all_files text
              (Disk (files d1) (stdout d1 ++ [Blank])) with
      | (Some e, d2) => (Some e, d2)
      | (None, d2) => (None, Disk (files d2) (stdout d2 ++ [Blank; Closing]))
      end
  end.

(** ** What the proofs speak of *)

(** A file system is a tree: whatever is stored lies in a directory that
    is stored too (or in the current directory). *)
Definition well_formed (fs : gmap path node) : Prop :=
  fs !! [] = None /\
  forall c above n,
    fs !! (c :: above) = Some n -> node_at fs above = Some Directory.

(** [q] is [p] or a directory above it: a suffix, the paths being
    written last component first. *)
Definition on_the_way (q p : path) : Prop := q `suffix_of` p.

(** Neither [p] nor a directory above it is a regular file. *)
Definition no_file_on_the_way (fs : gmap path node) (p : path) : Prop :=
  forall q content, on_the_way q p -> fs !! q <> Some (File content).

(** The file system with [p] and all directories above it made. *)
Fixpoint make_dirs (p : path) (fs : gmap path node) : gmap path node :=
  match p with
  | [] => fs
  | _ :: above => <[p := Directory]> (make_dirs above fs)
  end.

(** The file system with every directory of [ds] made, in order. *)
Definition make_all_dirs (ds : list string) (fs : gmap path node)
  : gmap path node :=
  foldl (fun acc directory => make_dirs (parse_path directory) acc) fs ds.

(** [fs1] is [fs] with some directories added: whatever was stored is
    stored unchanged, and what is new is a directory. *)
Definition grown (fs fs1 : gmap path node) : Prop :=
  forall q,
    fs1 !! q = fs !! q \/ (fs !! q = None /\ fs1 !! q = Some Directory).

(** The two file systems have the same directories. *)
Definition same_directories (fs fs1 : gmap path node) : Prop :=
  forall q, fs1 !! q = Some Directory <-> fs !! q = Some Directory.


(** ** Disks to run the script on *)

(** An empty current directory, nothing printed yet. *)
Definition empty_disk : disk := Disk ∅ [].

(** A current directory that holds a regular file named [config]. *)
Definition blocked_disk : disk := Disk {[ ["config"] := File "notes" ]} [].


(** A text for each generated file that is not written empty. *)
Definition placeholder_text (filepath : string) : string :=
  "text of " +:+ filepath.

End Generator.

(** * Properties *)

Section FacadeProperties.

Context {UserContext TaskResult Config Compliance Orchestrator : Type}.
Context {CollabState : Type}.

Abbreviation world' :=
  (@world UserContext TaskResult Config Compliance Orchestrator CollabState).
Abbreviation collaborators' :=
  (@collaborators UserContext TaskResult Config Compliance Orchestrator
                  CollabState).

Abbreviation M' :=
  (@M UserContext TaskResult Config Compliance Orchestrator CollabState).
Abbreviation event' :=
  (@event UserContext TaskResult Config Compliance Orchestrator).

Variable g : module_globals.
Variable env : collaborators'.

(** ** Equations of the monad and of the recorded calls *)

Lemma bind_Ret {A B} (m : M A) (k : A -> M B) (w w1 : world') a :
  m w = (Ret a, w1) -> bind m k w = k a w1.
Proof. intros H. unfold bind. now rewrite H. Qed.

Lemma bind_Raise {A B} (m : M A) (k : A -> M B) (w w1 : world') e :
  m w = (Raise e, w1) -> bind m k w = (Raise e, w1).
Proof. intros H. unfold bind. now rewrite H. Qed.

Lemma try_except_Ret {A} (m : M A) (h : exn -> M A) (w w1 : world') a :
  m w = (Ret a, w1) -> try_except m h w = (Ret a, w1).
Proof. intros H. unfold try_except. now rewrite H. Qed.

Lemma try_except_Raise {A} (m : M A) (h : exn -> M A) (w w1 : world') e :
  m w = (Raise e, w1) -> try_except m h w = h e w1.
Proof. intros H. unfold try_except. now rewrite H. Qed.

Lemma getattr_Some {A} attr (proj : OpenDelek -> option A) (w : world') a :
  proj (self w) = Some a -> getattr attr proj w = (Ret a, w).
Proof. intros H. unfold getattr. now rewrite H. Qed.

Lemma getattr_None {A} attr (proj : OpenDelek -> option A) (w : world') :
  proj (self w) = None ->
  getattr attr proj w = (Raise (AttributeError_object attr), w).
Proof. intros H. unfold getattr. now rewrite H. Qed.

Lemma call_validate_request_eq cm ui uc (w : world') o s :
  validate_request env cm ui uc (collab w) = (o, s) ->
  call_validate_request env cm ui uc w
  = (o, after_call w (CallValidateRequest cm ui uc) s).
Proof.
  intros H. unfold call_validate_request, bind, emit, call. simpl.
  now rewrite H.
Qed.

Lemma call_execute_task_eq o ui uc cr (w : world') r s :
  execute_task env o ui uc cr (collab w) = (r, s) ->
  call_execute_task env o ui uc cr w
  = (r, after_call w (CallExecuteTask o ui uc cr) s).
Proof.
  intros H. unfold call_execute_task, bind, emit, call. simpl.
  now rewrite H.
Qed.

Lemma call_log_interaction_eq cm uc ui r st (w : world') o s :
  log_interaction env cm uc ui r st (collab w) = (o, s) ->
  call_log_interaction env cm uc ui r st w
  = (o, after_call w (CallLogInteraction cm uc ui r st) s).
Proof.
  intros H. unfold call_log_interaction, bind, emit, call. simpl.
  now rewrite H.
Qed.

Lemma call_test_connection_eq cfg (w : world') o s :
  test_connection env cfg (collab w) = (o, s) ->
  call_test_connection env cfg w = (o, after_call w (CallTestConnection cfg) s).
Proof.
  intros H. unfold call_test_connection, bind, emit, call. simpl.
  now rewrite H.
Qed.

Lemma call_test_cortex_ai_eq orc (w : world') o s :
  test_cortex_ai env orc (collab w) = (o, s) ->
  call_test_cortex_ai env orc w = (o, after_call w (CallTestCortexAi orc) s).
Proof.
  intros H. unfold call_test_cortex_ai, bind, emit, call. simpl.
  now rewrite H.
Qed.

Lemma call_compliance_health_check_eq cm (w : world') o s :
  compliance_health_check env cm (collab w) = (o, s) ->
  call_compliance_health_check env cm w
  = (o, after_call w (CallComplianceHealthCheck cm) s).
Proof.
  intros H. unfold call_compliance_health_check, bind, emit, call. simpl.
  now rewrite H.
Qed.

Lemma call_test_containers_eq orc (w : world') o s :
  test_containers env orc (collab w) = (o, s) ->
  call_test_containers env orc w = (o, after_call w (CallTestContainers orc) s).
Proof.
  intros H. unfold call_test_containers, bind, emit, call. simpl.
  now rewrite H.
Qed.

(** ** The rejection branch *)

Lemma process_request_body_rejected ui uc (w : world') cm cr s1 :
  compliance_manager (self w) = Some cm ->
  validate_request env cm ui uc (collab w) = (Ret cr, s1) ->
  is_compliant cr = false ->
  process_request g env ui uc w
  = (Ret (Dict (rejection_record cr)),
     after_call w (CallValidateRequest cm ui uc) s1).
Proof.
  intros Hcm Hv Hc. unfold process_request.
  apply try_except_Ret. unfold process_request_try.
  erewrite bind_Ret by (apply getattr_Some; exact Hcm).
  erewrite bind_Ret by (apply call_validate_request_eq; exact Hv).
  rewrite Hc. reflexivity.
Qed.

Lemma rejection_record_status cr :
  rejection_record cr !! "status" = Some "rejected".
Proof. unfold rejection_record. by simplify_map_eq. Qed.

(** C1: when [validate_request] returns a result that is not compliant,
    [process_request] returns a record whose status is "rejected", makes no
    call of [execute_task], and makes no call of [log_interaction] with
    compliance status "COMPLIANT": the one call it makes is
    [validate_request]. *)
Theorem rejected_request_stops_at_validation ui uc (w : world') cm cr s1 :
  compliance_manager (self w) = Some cm ->
  validate_request env cm ui uc (collab w) = (Ret cr, s1) ->
  is_compliant cr = false ->
  exists d w1 t,
    process_request g env ui uc w = (Ret (Dict d), w1) /\
    d !! "status" = Some "rejected" /\
    trace w1 = trace w ++ t /\
    t = [CallValidateRequest cm ui uc] /\
    count is_execute_task t = 0 /\
    count (is_log_interaction "COMPLIANT") t = 0.
Proof.
  intros Hcm Hv Hc.
  exists (rejection_record cr), (after_call w (CallValidateRequest cm ui uc) s1),
    [CallValidateRequest cm ui uc].
  split; [now apply process_request_body_rejected |].
  split; [apply rejection_record_status |].
  repeat split.
Qed.

(** C3: when [validate_request] returns a result that is not compliant
    with reason [r], the record returned has exactly the three entries
    status "rejected", message "Request violates corporate policy: " followed
    by [r], and compliance_status "NON_COMPLIANT". *)
Theorem rejected_request_record ui uc (w : world') cm cr s1 r :
  compliance_manager (self w) = Some cm ->
  validate_request env cm ui uc (collab w) = (Ret cr, s1) ->
  is_compliant cr = false ->
  reason cr = Some r ->
  fst (process_request g env ui uc w)
  = Ret (Dict {[ "status" := "rejected";
                 "message" := "Request violates corporate policy: " +:+ r;
                 "compliance_status" := "NON_COMPLIANT" ]}).
Proof.
  intros Hcm Hv Hc Hr.
  rewrite (process_request_body_rejected ui uc w cm cr s1 Hcm Hv Hc).
  unfold rejection_record. rewrite Hr. reflexivity.
Qed.

(** When the compliance result carries no reason, the f-string prints
    [None] after the prefix. *)
Lemma rejected_request_record_no_reason ui uc (w : world') cm cr s1 :
  compliance_manager (self w) = Some cm ->
  validate_request env cm ui uc (collab w) = (Ret cr, s1) ->
  is_compliant cr = false ->
  reason cr = None ->
  fst (process_request g env ui uc w)
  = Ret (Dict {[ "status" := "rejected";
                 "message" := "Request violates corporate policy: None";
                 "compliance_status" := "NON_COMPLIANT" ]}).
Proof.
  intros Hcm Hv Hc Hr.
  rewrite (process_request_body_rejected ui uc w cm cr s1 Hcm Hv Hc).
  unfold rejection_record. rewrite Hr. reflexivity.
Qed.

(** ** The compliant branch *)

(** C2: when [validate_request] returns a compliant result and no
    collaborator raises, [process_request] calls [execute_task] once, with
    the caller's [user_input] and [user_context] (and the compliance
    result), then [log_interaction] once, with the same context and input,
    the orchestrator's result and "COMPLIANT", and returns the
    orchestrator's result itself. *)
Theorem compliant_request_executes_then_logs
    ui uc (w : world') cm o cr s1 r s2 s3 :
  compliance_manager (self w) = Some cm ->
  orchestrator (self w) = Some o ->
  validate_request env cm ui uc (collab w) = (Ret cr, s1) ->
  is_compliant cr = true ->
  execute_task env o ui uc cr s1 = (Ret r, s2) ->
  log_interaction env cm uc ui r "COMPLIANT" s2 = (Ret tt, s3) ->
  exists w1 t,
    process_request g env ui uc w = (Ret (Object r), w1) /\
    trace w1 = trace w ++ t /\
    t = [CallValidateRequest cm ui uc;
         CallExecuteTask o ui uc cr;
         CallLogInteraction cm uc ui r "COMPLIANT"] /\
    count is_execute_task t = 1 /\
    count (is_log_interaction "COMPLIANT") t = 1 /\
    collab w1 = s3 /\
    self w1 = self w.
Proof.
  intros Hcm Ho Hv Hc He Hl.
  eexists. eexists. split.
  - unfold process_request. apply try_except_Ret.
    unfold process_request_try.
    erewrite bind_Ret by (apply getattr_Some; exact Hcm).
    erewrite bind_Ret by (apply call_validate_request_eq; exact Hv).
    rewrite Hc. simpl.
    erewrite bind_Ret by (apply getattr_Some; exact Ho).
    erewrite bind_Ret by (apply call_execute_task_eq; exact He).
    erewrite bind_Ret by (apply getattr_Some; exact Hcm).
    erewrite bind_Ret by (apply call_log_interaction_eq; exact Hl).
    reflexivity.
  - simpl. rewrite <- !app_assoc. simpl. repeat split.
Qed.

(** ** The exception handler of [process_request] *)

Lemma process_request_except_unbound e (w : world') :
  g_uuid g = UuidUnbound ->
  process_request_except g env e w
  = (Raise (NameError "uuid"),
     after_event w (LoggerError ("Error processing request: " +:+ exn_str e))).
Proof.
  intros Hg. unfold process_request_except, str_uuid_uuid4. rewrite Hg.
  reflexivity.
Qed.

Lemma process_request_except_bound e (w : world') :
  g_uuid g = UuidModule ->
  process_request_except g env e w
  = (Ret (Dict (error_record
                  (uuid_str (uuid_of_random (os_urandom env (urandom_reads w)))))),
     World (self w) (collab w)
           (trace w ++ [LoggerError ("Error processing request: " +:+ exn_str e)])
           (S (urandom_reads w)) (clock_reads w)).
Proof.
  intros Hg. unfold process_request_except, str_uuid_uuid4. rewrite Hg.
  reflexivity.
Qed.

Lemma raises_in_try_sound ui uc (w : world') e w1 :
  raises_in_try env ui uc w e w1 ->
  process_request_try env ui uc w = (Raise e, w1).
Proof.
  intros H. unfold process_request_try.
  destruct H as [cm e s1 Hcm Hv
                | cm o cr s1 e s2 Hcm Ho Hv Hc He
                | cm o cr s1 r s2 e s3 Hcm Ho Hv Hc He Hl].
  - erewrite bind_Ret by (apply getattr_Some; exact Hcm).
    erewrite bind_Raise by (apply call_validate_request_eq; exact Hv).
    reflexivity.
  - erewrite bind_Ret by (apply getattr_Some; exact Hcm).
    erewrite bind_Ret by (apply call_validate_request_eq; exact Hv).
    rewrite Hc. simpl.
    erewrite bind_Ret by (apply getattr_Some; exact Ho).
    erewrite bind_Raise by (apply call_execute_task_eq; exact He).
    reflexivity.
  - erewrite bind_Ret by (apply getattr_Some; exact Hcm).
    erewrite bind_Ret by (apply call_validate_request_eq; exact Hv).
    rewrite Hc. simpl.
    erewrite bind_Ret by (apply getattr_Some; exact Ho).
    erewrite bind_Ret by (apply call_execute_task_eq; exact He).
    erewrite bind_Ret by (apply getattr_Some; exact Hcm).
    erewrite bind_Raise by (apply call_log_interaction_eq; exact Hl).
    reflexivity.
Qed.

(** With the module imported, the handler itself raises: a collaborator's
    exception leaves [process_request] as a [NameError]. *)
Lemma failing_request_uuid_unbound ui uc (w : world') e w1 :
  g_uuid g = UuidUnbound ->
  raises_in_try env ui uc w e w1 ->
  process_request g env ui uc w
  = (Raise (NameError "uuid"),
     after_event w1 (LoggerError ("Error processing request: " +:+ exn_str e))).
Proof.
  intros Hg H. unfold process_request.
  erewrite try_except_Raise by (apply raises_in_try_sound; exact H).
  now apply process_request_except_unbound.
Qed.

(** With [uuid] bound, a collaborator's exception is turned into the
    error record, with an identifier drawn from the random source. *)
Lemma failing_request_uuid_bound ui uc (w : world') e w1 :
  g_uuid g = UuidModule ->
  raises_in_try env ui uc w e w1 ->
  process_request g env ui uc w
  = (Ret (Dict (error_record
                  (uuid_str (uuid_of_random (os_urandom env (urandom_reads w1)))))),
     World (self w1) (collab w1)
           (trace w1 ++ [LoggerError ("Error processing request: " +:+ exn_str e)])
           (S (urandom_reads w1)) (clock_reads w1)).
Proof.
  intros Hg H. unfold process_request.
  erewrite try_except_Raise by (apply raises_in_try_sound; exact H).
  now apply process_request_except_bound.
Qed.

Lemma string_length_append (s1 s2 : string) :
  String.length (s1 +:+ s2) = String.length s1 + String.length s2.
Proof. induction s1 as [|c s1 IH]; simpl; [reflexivity | now rewrite IH]. Qed.

Lemma hex_digits_length k n : String.length (hex_digits k n) = k.
Proof. induction k as [|k IH]; simpl; [reflexivity | now rewrite IH]. Qed.

(** An error identifier is never empty: it has 36 characters. *)
Lemma uuid_str_length u : String.length (uuid_str u) = 36.
Proof.
  unfold uuid_str.
  rewrite !string_length_append, !hex_digits_length. reflexivity.
Qed.

(** Two identifiers print alike only if they are the same 128 bits. *)
Lemma hex_digit_inj a b :
  hex_digit a = hex_digit b -> N.land a 15 = N.land b 15.
Proof.
  unfold hex_digit.
  assert (Ha : (N.land a 15 < 16)%N).
  { change 15%N with (N.ones 4). rewrite N.land_ones. now apply N.mod_lt. }
  assert (Hb : (N.land b 15 < 16)%N).
  { change 15%N with (N.ones 4). rewrite N.land_ones. now apply N.mod_lt. }
  revert Ha Hb. generalize (N.land a 15) (N.land b 15). intros x y Hx Hy.
  destruct x
    as [| [[[[?|?|]|[?|?|]|]|[[?|?|]|[?|?|]|]|]
          |[[[?|?|]|[?|?|]|]|[[?|?|]|[?|?|]|]|]|]];
    try (exfalso; lia);
    destruct y
      as [| [[[[?|?|]|[?|?|]|]|[[?|?|]|[?|?|]|]|]
            |[[[?|?|]|[?|?|]|]|[[?|?|]|[?|?|]|]|]|]];
    try (exfalso; lia); intros H; try reflexivity; discriminate H.
Qed.

Lemma testbit_land_15 a i :
  (i < 4)%N -> N.testbit (N.land a 15) i = N.testbit a i.
Proof.
  intros Hi. change 15%N with (N.ones 4).
  rewrite N.land_spec, N.ones_spec_low by exact Hi. apply andb_true_r.
Qed.

Lemma hex_digits_inj k n m :
  hex_digits k n = hex_digits k m ->
  forall i, (i < 4 * N.of_nat k)%N -> N.testbit n i = N.testbit m i.
Proof.
  induction k as [|k IH]; intros H i Hi.
  - lia.
  - simpl in H. injection H as Hd Hr.
    destruct (N.lt_ge_cases i (4 * N.of_nat k)) as [Hlt | Hge].
    + now apply IH.
    + apply hex_digit_inj in Hd.
      assert (Hj : (i - 4 * N.of_nat k < 4)%N) by lia.
      apply (f_equal (fun x => N.testbit x (i - 4 * N.of_nat k))) in Hd.
      rewrite !testbit_land_15 in Hd by exact Hj.
      rewrite !N.shiftr_spec' in Hd.
      replace (i - 4 * N.of_nat k + 4 * N.of_nat k)%N with i in Hd by lia.
      exact Hd.
Qed.

Lemma append_inj_length (s1 t1 s2 t2 : string) :
  String.length s1 = String.length t1 ->
  s1 +:+ s2 = t1 +:+ t2 -> s1 = t1 /\ s2 = t2.
Proof.
  revert t1. induction s1 as [|c s1 IH]; intros [|d t1] Hl H; simpl in *;
    try discriminate.
  - now split.
  - injection Hl as Hl. injection H as -> H.
    destruct (IH t1 Hl H) as [-> ->]. now split.
Qed.

Ltac split_group H Hpiece :=
  apply append_inj_length in H; [| now rewrite !hex_digits_length];
  destruct H as [Hpiece H];
  apply (append_inj_length "-" "-") in H; [| reflexivity];
  destruct H as [_ H].

Ltac shifted_bits B i k :=
  specialize (B (i - k)%N); rewrite !N.shiftr_spec' in B;
  replace (i - k + k)%N with i in B by lia; apply B; lia.

Lemma uuid_str_inj u v :
  uuid_str u = uuid_str v ->
  forall i, (i < 128)%N -> N.testbit u i = N.testbit v i.
Proof.
  unfold uuid_str. intros H i Hi.
  split_group H H1. split_group H H2. split_group H H3. split_group H H4.
  pose proof (hex_digits_inj _ _ _ H1) as B1.
  pose proof (hex_digits_inj _ _ _ H2) as B2.
  pose proof (hex_digits_inj _ _ _ H3) as B3.
  pose proof (hex_digits_inj _ _ _ H4) as B4.
  pose proof (hex_digits_inj _ _ _ H) as B5.
  destruct (N.lt_ge_cases i 48) as [L48 | G48]; [apply B5; lia |].
  destruct (N.lt_ge_cases i 64) as [L64 | G64]; [shifted_bits B4 i 48%N |].
  destruct (N.lt_ge_cases i 80) as [L80 | G80]; [shifted_bits B3 i 64%N |].
  destruct (N.lt_ge_cases i 96) as [L96 | G96]; [shifted_bits B2 i 80%N |].
  shifted_bits B1 i 96%N.
Qed.

Lemma testbit_above c i :
  (c < 2 ^ 128)%N -> (128 <= i)%N -> N.testbit c i = false.
Proof.
  intros Hc Hi. destruct (N.eq_dec c 0%N) as [-> | Hne]; [apply N.bits_0 |].
  apply N.bits_above_log2.
  assert (N.log2 c < 128)%N by (apply N.log2_lt_pow2; lia). lia.
Qed.

(** A UUID is a 128-bit number. *)
Lemma uuid_of_random_high r i :
  (128 <= i)%N -> N.testbit (uuid_of_random r) i = false.
Proof.
  intros Hi. unfold uuid_of_random. cbv zeta.
  repeat (rewrite N.lor_spec || rewrite N.land_spec).
  rewrite N.ones_spec_high by exact Hi.
  rewrite (testbit_above (N.shiftl 32768 48) i) by (exact Hi || reflexivity).
  rewrite (testbit_above (N.shiftl 4 76) i) by (exact Hi || reflexivity).
  rewrite andb_false_r. reflexivity.
Qed.

(** Different UUIDs print differently. *)
Lemma uuid_str_uuid_of_random_inj r1 r2 :
  uuid_str (uuid_of_random r1) = uuid_str (uuid_of_random r2) ->
  uuid_of_random r1 = uuid_of_random r2.
Proof.
  intros H. apply N.bits_inj. intros i.
  destruct (N.lt_ge_cases i 128) as [Hlt | Hge].
  - now apply uuid_str_inj.
  - now rewrite !uuid_of_random_high.
Qed.

Lemma raises_in_try_urandom_reads ui uc (w : world') e w1 :
  raises_in_try env ui uc w e w1 -> urandom_reads w1 = urandom_reads w.
Proof. intros H. destruct H; reflexivity. Qed.

(** With [uuid] bound, two failing calls in a row return error records
    whose identifiers differ, provided the two readings of the random
    source give different UUIDs. *)
Lemma repeated_failures_distinct_error_ids
    ui uc ui' uc' (w : world') e w1 e' w1' :
  g_uuid g = UuidModule ->
  raises_in_try env ui uc w e w1 ->
  raises_in_try env ui' uc' (snd (process_request g env ui uc w)) e' w1' ->
  uuid_of_random (os_urandom env (urandom_reads w))
  <> uuid_of_random (os_urandom env (S (urandom_reads w))) ->
  exists id1 id2,
    fst (process_request g env ui uc w) = Ret (Dict (error_record id1)) /\
    fst (process_request g env ui' uc'
           (snd (process_request g env ui uc w)))
    = Ret (Dict (error_record id2)) /\
    id1 <> id2.
Proof.
  intros Hg H1 H2 Hr.
  pose proof (raises_in_try_urandom_reads _ _ _ _ _ H1) as R1.
  pose proof (raises_in_try_urandom_reads _ _ _ _ _ H2) as R2.
  rewrite (failing_request_uuid_bound ui' uc' _ e' w1' Hg H2).
  rewrite (failing_request_uuid_bound ui uc w e w1 Hg H1) in R2 |- *.
  simpl in R2 |- *. rewrite R2, R1.
  eexists. eexists. split; [reflexivity |]. split; [reflexivity |].
  intros Heq. apply Hr. now apply uuid_str_uuid_of_random_inj.
Qed.

(** ** Framing: what the methods never assign *)

Lemma count_app (p : event' -> bool) (t1 t2 : list event') :
  count p (t1 ++ t2) = count p t1 + count p t2.
Proof. unfold count. now rewrite List.filter_app, List.length_app. Qed.

Lemma assigns_nothing_ret {A} (a : A) : assigns_nothing (ret a : M' A).
Proof. intros w. split; [reflexivity |]. exists []. now rewrite app_nil_r. Qed.

Lemma assigns_nothing_raise {A} e : assigns_nothing (raise e : M' A).
Proof. intros w. split; [reflexivity |]. exists []. now rewrite app_nil_r. Qed.

Lemma assigns_nothing_emit (ev : event') :
  is_any_setattr ev = false -> assigns_nothing (emit ev : M' unit).
Proof.
  intros Hev w. split; [reflexivity |]. exists [ev]. split; [reflexivity |].
  unfold count. simpl. now rewrite Hev.
Qed.

Lemma assigns_nothing_call {A} (f : CollabState -> outcome A * CollabState) :
  assigns_nothing (call f : M' A).
Proof.
  intros w. unfold call. destruct (f (collab w)) as [o s]. simpl.
  split; [reflexivity |]. exists []. now rewrite app_nil_r.
Qed.

Lemma assigns_nothing_getattr {A} attr (proj : OpenDelek -> option A) :
  assigns_nothing (getattr attr proj : M' A).
Proof.
  intros w. unfold getattr. destruct (proj (self w)); simpl;
    (split; [reflexivity |]; exists []; now rewrite app_nil_r).
Qed.

Lemma assigns_nothing_bind {A B} (m : M' A) (k : A -> M' B) :
  assigns_nothing m -> (forall a, assigns_nothing (k a)) ->
  assigns_nothing (bind m k).
Proof.
  intros Hm Hk w. unfold bind.
  destruct (Hm w) as [Hs [t [Ht Hc]]].
  destruct (m w) as [[a | e] w1]; simpl in *.
  - destruct (Hk a w1) as [Hs1 [t1 [Ht1 Hc1]]].
    split; [congruence |]. exists (t ++ t1).
    split; [rewrite Ht1, Ht; now rewrite app_assoc |].
    rewrite count_app. lia.
  - split; [assumption |]. now exists t.
Qed.

Lemma assigns_nothing_try_except {A} (m : M' A) (h : exn -> M' A) :
  assigns_nothing m -> (forall e, assigns_nothing (h e)) ->
  assigns_nothing (try_except m h).
Proof.
  intros Hm Hh w. unfold try_except.
  destruct (Hm w) as [Hs [t [Ht Hc]]].
  destruct (m w) as [[a | e] w1]; simpl in *.
  - split; [assumption |]. now exists t.
  - destruct (Hh e w1) as [Hs1 [t1 [Ht1 Hc1]]].
    split; [congruence |]. exists (t ++ t1).
    split; [rewrite Ht1, Ht; now rewrite app_assoc |].
    rewrite count_app. lia.
Qed.

Lemma assigns_nothing_if {A} (b : bool) (m1 m2 : M' A) :
  assigns_nothing m1 -> assigns_nothing m2 ->
  assigns_nothing (if b then m1 else m2).
Proof. now destruct b. Qed.

Lemma assigns_nothing_str_uuid_uuid4 : assigns_nothing (str_uuid_uuid4 g env).
Proof.
  unfold str_uuid_uuid4. destruct (g_uuid g).
  - apply assigns_nothing_raise.
  - intros w. simpl. split; [reflexivity |]. exists []. now rewrite app_nil_r.
Qed.

Lemma assigns_nothing_datetime_now_isoformat :
  assigns_nothing (datetime_now_isoformat g env).
Proof.
  unfold datetime_now_isoformat. destruct (g_datetime g).
  - apply assigns_nothing_raise.
  - apply assigns_nothing_raise.
  - intros w. simpl. split; [reflexivity |]. exists []. now rewrite app_nil_r.
Qed.

Create HintDb frame.

#[local] Hint Resolve assigns_nothing_ret assigns_nothing_raise
  assigns_nothing_call assigns_nothing_getattr assigns_nothing_bind
  assigns_nothing_try_except assigns_nothing_if
  assigns_nothing_str_uuid_uuid4 assigns_nothing_datetime_now_isoformat
  : frame.
#[local] Hint Extern 1 (assigns_nothing (emit _)) =>
  (apply assigns_nothing_emit; reflexivity) : frame.

Ltac frame :=
  repeat first
    [ apply assigns_nothing_bind; [| intros ?]
    | apply assigns_nothing_try_except; [| intros ?]
    | apply assigns_nothing_if
    | apply assigns_nothing_emit; reflexivity
    | solve [auto with frame] ].

Lemma process_request_assigns_nothing ui uc :
  assigns_nothing (process_request g env ui uc).
Proof.
  unfold process_request, process_request_try, process_request_except,
    call_validate_request, call_execute_task, call_log_interaction.
  frame.
Qed.

Lemma health_check_assigns_nothing : assigns_nothing (health_check g env).
Proof.
  unfold health_check, call_test_connection, call_test_cortex_ai,
    call_compliance_health_check, call_test_containers.
  frame.
Qed.

(** ** Construction *)

(** Unfold the monad and split on every collaborator's answer. *)
Ltac run_in H :=
  unfold bind, try_except, ret, raise, emit, call, getattr, setattr in H;
  simpl in H;
  repeat match type of H with
         | context [match ?x with _ => _ end] =>
             lazymatch x with
             | context [match _ with _ => _ end] => fail
             | _ =>
                 let E := fresh "E" in
                 destruct x eqn:E; simpl in H; try discriminate H
             end
         end.

(** A construction that succeeds has run the three constructors in order,
    each on the results of the ones before, and has assigned each attribute
    once. *)
Lemma new_OpenDelek_Ret path (w w1 : world') :
  new_OpenDelek env path w = (Ret tt, w1) ->
  exists cfg s1 cm s2 o s3,
    SnowflakeConfig env path (collab w) = (Ret cfg, s1) /\
    ComplianceManager env cfg s1 = (Ret cm, s2) /\
    DelekOrchestrator env cfg cm s2 = (Ret o, s3) /\
    w1 = World {| config := Some cfg;
                  compliance_manager := Some cm;
                  orchestrator := Some o |}
               s3
               (trace w ++
                  [LoggerInfo "Initializing OpenDelek Corporate AI Assistant";
                   NewSnowflakeConfig path;
                   SetAttr "config";
                   NewComplianceManager cfg;
                   SetAttr "compliance_manager";
                   NewDelekOrchestrator cfg cm;
                   SetAttr "orchestrator";
                   LoggerInfo "OpenDelek initialization completed successfully"])
               (urandom_reads w) (clock_reads w).
Proof.
  intros H. unfold new_OpenDelek, __init__, new_SnowflakeConfig,
    new_ComplianceManager, new_DelekOrchestrator in H.
  run_in H.
  injection H as <-.
  do 6 eexists. repeat split; try eassumption.
  simpl. rewrite <- !app_assoc. reflexivity.
Qed.

(** Whatever the outcome of the construction, no attribute is assigned
    twice. *)
Lemma construction_assigns_at_most_once path (w : world') :
  exists t,
    trace (snd (new_OpenDelek env path w)) = trace w ++ t /\
    count (is_setattr "config") t <= 1 /\
    count (is_setattr "compliance_manager") t <= 1 /\
    count (is_setattr "orchestrator") t <= 1.
Proof.
  unfold new_OpenDelek, __init__, new_SnowflakeConfig,
    new_ComplianceManager, new_DelekOrchestrator.
  unfold bind, try_except, ret, raise, emit, call, getattr, setattr. simpl.
  destruct (SnowflakeConfig env path (collab w)) as [[cfg | e] s1]; simpl.
  - destruct (ComplianceManager env cfg s1) as [[cm | e] s2]; simpl.
    + destruct (DelekOrchestrator env cfg cm s2) as [[o | e] s3]; simpl;
        rewrite <- !app_assoc; simpl; eexists; (split; [reflexivity |]);
        unfold count; simpl; lia.
    + rewrite <- !app_assoc; simpl; eexists; (split; [reflexivity |]).
      unfold count; simpl; lia.
  - rewrite <- !app_assoc; simpl; eexists; (split; [reflexivity |]).
    unfold count; simpl; lia.
Qed.

(** C9: the three collaborator references are assigned once each by the
    constructor, and no call of [process_request] or of [health_check]
    assigns any attribute of the facade: whatever the outcome, the instance
    is left as it was. *)
Theorem collaborator_references_assigned_once :
  (forall path (w w1 : world'),
     new_OpenDelek env path w = (Ret tt, w1) ->
     exists cfg cm o t,
       self w1 = {| config := Some cfg;
                    compliance_manager := Some cm;
                    orchestrator := Some o |} /\
       trace w1 = trace w ++ t /\
       count (is_setattr "config") t = 1 /\
       count (is_setattr "compliance_manager") t = 1 /\
       count (is_setattr "orchestrator") t = 1 /\
       count is_any_setattr t = 3) /\
  (forall ui uc (w : world'),
     self (snd (process_request g env ui uc w)) = self w /\
     exists t,
       trace (snd (process_request g env ui uc w)) = trace w ++ t /\
       count is_any_setattr t = 0) /\
  (forall w : world',
     self (snd (health_check g env w)) = self w /\
     exists t,
       trace (snd (health_check g env w)) = trace w ++ t /\
       count is_any_setattr t = 0).
Proof.
  split; [| split].
  - intros path w w1 H.
    destruct (new_OpenDelek_Ret path w w1 H)
      as (cfg & s1 & cm & s2 & o & s3 & _ & _ & _ & ->).
    exists cfg, cm, o. eexists. simpl. repeat split.
  - intros ui uc. apply process_request_assigns_nothing.
  - apply health_check_assigns_nothing.
Qed.

(** ** The health check *)

(** When the four probes return, what [health_check] does is decided by
    the binding of the global [datetime]. *)
Lemma health_check_probes_return cfg cm o (w : world') a s1 b s2 c s3 d s4 :
  config (self w) = Some cfg ->
  compliance_manager (self w) = Some cm ->
  orchestrator (self w) = Some o ->
  test_connection env cfg (collab w) = (Ret a, s1) ->
  test_cortex_ai env o s1 = (Ret b, s2) ->
  compliance_health_check env cm s2 = (Ret c, s3) ->
  test_containers env o s3 = (Ret d, s4) ->
  health_check g env w
  = match g_datetime g with
    | DatetimeUnbound =>
        (Raise (NameError "datetime"), after_probes w cfg o cm s1 s2 s3 s4)
    | DatetimeModule =>
        (Raise (AttributeError_module "datetime" "now"),
         after_probes w cfg o cm s1 s2 s3 s4)
    | DatetimeClass =>
        (Ret {| status := "healthy";
                components :=
                  {[ "snowflake_connection" := a;
                     "cortex_ai" := b;
                     "compliance_system" := c;
                     "container_services" := d ]};
                timestamp := now_isoformat env (clock_reads w) |},
         World (self w) s4 (trace (after_probes w cfg o cm s1 s2 s3 s4))
               (urandom_reads w) (S (clock_reads w)))
    end.
Proof.
  intros Hcfg Hcm Ho H1 H2 H3 H4. unfold health_check.
  erewrite bind_Ret by (apply getattr_Some; exact Hcfg).
  erewrite bind_Ret by (apply call_test_connection_eq; exact H1).
  erewrite bind_Ret by (apply getattr_Some; exact Ho).
  erewrite bind_Ret by (apply call_test_cortex_ai_eq; exact H2).
  erewrite bind_Ret by (apply getattr_Some; exact Hcm).
  erewrite bind_Ret by (apply call_compliance_health_check_eq; exact H3).
  erewrite bind_Ret by (apply getattr_Some; exact Ho).
  erewrite bind_Ret by (apply call_test_containers_eq; exact H4).
  unfold bind, datetime_now_isoformat. destruct (g_datetime g); reflexivity.
Qed.


(** Whenever [health_check] returns a report, the global [datetime] is
    bound to the class, and the status is the constant "healthy",
    whatever the probes said. *)
Lemma health_check_Ret (w w1 : world') h :
  health_check g env w = (Ret h, w1) ->
  g_datetime g = DatetimeClass /\
  status h = "healthy" /\
  exists a b c d,
    components h = {[ "snowflake_connection" := a;
                      "cortex_ai" := b;
                      "compliance_system" := c;
                      "container_services" := d ]}.
Proof.
  intros H.
  unfold health_check, call_test_connection, call_test_cortex_ai,
    call_compliance_health_check, call_test_containers,
    datetime_now_isoformat in H.
  destruct (g_datetime g); run_in H.
  injection H as <- <-. split; [reflexivity |]. split; [reflexivity |].
  do 4 eexists. reflexivity.
Qed.

(** As the source binds it, or fails to, [datetime] is never the class:
    [health_check] raises on every call. *)
Lemma health_check_never_returns (w : world') :
  g_datetime g <> DatetimeClass ->
  exists e w1, health_check g env w = (Raise e, w1).
Proof.
  intros Hg. destruct (health_check g env w) as [[h | e] w1] eqn:E.
  - apply health_check_Ret in E. tauto.
  - eauto.
Qed.

(** ** The entry point *)

(** The three ways the body of [main] can go, after the banner. *)
Lemma main_over_construction_raises
    (construct : M' unit) (check : M' HealthReport) (w w1 : world') e :
  construct (after_event w PrintBanner) = (Raise e, w1) ->
  fst (main_over construct check w) = Ret 1%Z.
Proof.
  intros H. unfold main_over, bind at 1. simpl.
  erewrite try_except_Raise by (apply bind_Raise; exact H).
  reflexivity.
Qed.

Lemma main_over_check_raises
    (construct : M' unit) (check : M' HealthReport) (w w1 w2 : world') e :
  construct (after_event w PrintBanner) = (Ret tt, w1) ->
  check w1 = (Raise e, w2) ->
  fst (main_over construct check w) = Ret 1%Z.
Proof.
  intros H1 H2. unfold main_over, bind at 1. simpl.
  erewrite try_except_Raise; [reflexivity |].
  erewrite bind_Ret by exact H1.
  erewrite bind_Raise by exact H2. reflexivity.
Qed.

Lemma main_over_check_returns
    (construct : M' unit) (check : M' HealthReport) (w w1 w2 : world') h :
  construct (after_event w PrintBanner) = (Ret tt, w1) ->
  check w1 = (Ret h, w2) ->
  fst (main_over construct check w)
  = Ret (if String.eqb (status h) "healthy" then 0%Z else 1%Z).
Proof.
  intros H1 H2. unfold main_over, bind at 1. simpl.
  destruct (String.eqb (status h) "healthy") eqn:Hs;
    (erewrite try_except_Ret; [reflexivity |];
     erewrite bind_Ret by exact H1;
     erewrite bind_Ret by exact H2;
     unfold bind, emit, ret; simpl; rewrite Hs; reflexivity).
Qed.

(** The same of [main] itself. *)
Lemma main_construction_raises (w w1 : world') e :
  new_OpenDelek env default_config_path (after_event w PrintBanner)
  = (Raise e, w1) ->
  fst (main g env w) = Ret 1%Z.
Proof. apply main_over_construction_raises. Qed.

Lemma main_health_check_raises (w w1 w2 : world') e :
  new_OpenDelek env default_config_path (after_event w PrintBanner)
  = (Ret tt, w1) ->
  health_check g env w1 = (Raise e, w2) ->
  fst (main g env w) = Ret 1%Z.
Proof. apply main_over_check_raises. Qed.

Lemma main_health_check_returns (w w1 w2 : world') h :
  new_OpenDelek env default_config_path (after_event w PrintBanner)
  = (Ret tt, w1) ->
  health_check g env w1 = (Ret h, w2) ->
  fst (main g env w)
  = Ret (if String.eqb (status h) "healthy" then 0%Z else 1%Z).
Proof. apply main_over_check_returns. Qed.

(** With [datetime] bound as the source binds it, [health_check] raises
    and the exit code of [main] is 1, whatever the collaborators do. *)
Lemma main_exits_1_unless_datetime_class (w : world') :
  g_datetime g <> DatetimeClass ->
  fst (main g env w) = Ret 1%Z.
Proof.
  intros Hg.
  destruct (new_OpenDelek env default_config_path (after_event w PrintBanner))
    as [[[] | e] w1] eqn:E1.
  - destruct (health_check_never_returns w1 Hg) as (e & w2 & E2).
    now apply (main_health_check_raises w w1 w2 e).
  - now apply (main_construction_raises w w1 e).
Qed.

(** C8: [main] constructs the facade and runs [health_check]; its exit
    code is 0 exactly when both return and the status of the returned
    report is "healthy", and 1 in every other case: a report with another
    status, an exception from the construction, an exception from the
    health check.  This is so of [main] as the module binds the names, and
    of its body over any [health_check] whatever, which is where the test
    of line 205 decides: the facade's own [health_check] returns no status
    but "healthy".  And as the source binds [datetime], that
    [health_check] raises, so that the exit code is 1 whatever the
    collaborators do. *)
Theorem main_exit_code (w : world') :
  let w0 := after_event w PrintBanner in
  let construct := new_OpenDelek env default_config_path in
  let contract (check : M' HealthReport) (run : M' Z) :=
    let reports (h : HealthReport) :=
      exists w1 w2,
        construct w0 = (Ret tt, w1) /\ check w1 = (Ret h, w2) in
    (fst (run w) = Ret 0%Z <->
       exists h, reports h /\ status h = "healthy") /\
    (fst (run w) = Ret 1%Z <->
       ~ exists h, reports h /\ status h = "healthy") /\
    (forall h,
       reports h -> status h <> "healthy" -> fst (run w) = Ret 1%Z) /\
    (forall e w1,
       construct w0 = (Raise e, w1) -> fst (run w) = Ret 1%Z) /\
    (forall w1 e w2,
       construct w0 = (Ret tt, w1) ->
       check w1 = (Raise e, w2) ->
       fst (run w) = Ret 1%Z) in
  contract (health_check g env) (main g env) /\
  (forall check, contract check (main_over construct check)) /\
  (g_datetime g <> DatetimeClass -> fst (main g env w) = Ret 1%Z).
Proof.
  cbv beta zeta.
  match goal with |- _ /\ ?G /\ _ => assert (Hgen : G) end.
  { intros check.
    set (construct := new_OpenDelek env default_config_path).
    set (run := main_over construct check).
    assert (Hcases :
      (fst (run w) = Ret 0%Z /\
         exists h, (exists w1 w2,
                      construct (after_event w PrintBanner) = (Ret tt, w1) /\
                      check w1 = (Ret h, w2)) /\
                   status h = "healthy") \/
      (fst (run w) = Ret 1%Z /\
         ~ exists h, (exists w1 w2,
                        construct (after_event w PrintBanner) = (Ret tt, w1) /\
                        check w1 = (Ret h, w2)) /\
                     status h = "healthy")).
    { destruct (construct (after_event w PrintBanner))
        as [[[] | e] w1] eqn:E1.
      - destruct (check w1) as [[h | e] w2] eqn:E2.
        + unfold run.
          rewrite (main_over_check_returns construct check w w1 w2 h E1 E2).
          destruct (String.eqb_spec (status h) "healthy") as [Hs | Hs].
          * left. split; [reflexivity |]. exists h. split; [| exact Hs].
            exists w1, w2. now split.
          * right. split; [reflexivity |].
            intros (h' & (w1' & w2' & E1' & E2') & Hs').
            injection E1' as <-.
            rewrite E2 in E2'. injection E2' as <- <-. contradiction.
        + right.
          split; [now apply (main_over_check_raises construct check w w1 w2 e) |].
          intros (h' & (w1' & w2' & E1' & E2') & Hs').
          injection E1' as <-.
          rewrite E2 in E2'. discriminate.
      - right.
        split; [now apply (main_over_construction_raises construct check w w1 e) |].
        intros (h' & (w1' & w2' & E1' & E2') & Hs').
        discriminate. }
    split; [| split; [| split; [| split]]].
    - split.
      + intros H0. destruct Hcases as [[_ H] | [H1 _]]; [exact H |].
        rewrite H0 in H1. discriminate.
      + intros H. destruct Hcases as [[H0 _] | [_ Hn]]; [exact H0 | tauto].
    - split.
      + intros H1. destruct Hcases as [[H0 _] | [_ Hn]]; [| exact Hn].
        rewrite H1 in H0. discriminate.
      + intros Hn. destruct Hcases as [[_ H] | [H1 _]]; [tauto | exact H1].
    - intros h (w1 & w2 & E1 & E2) Hs. unfold run.
      rewrite (main_over_check_returns construct check w w1 w2 h E1 E2).
      destruct (String.eqb_spec (status h) "healthy"); [contradiction |].
      reflexivity.
    - intros e w1 E1.
      now apply (main_over_construction_raises construct check w w1 e).
    - intros w1 e w2 E1 E2.
      now apply (main_over_check_raises construct check w w1 w2 e). }
  split; [exact (Hgen (health_check g env)) |].
  split; [exact Hgen | apply main_exits_1_unless_datetime_class].
Qed.

(** ** What a caller of [process_request] can receive *)

(** A value returned by the [try] suite is the rejection record or the
    orchestrator's object. *)
Lemma process_request_try_Ret ui uc (w w1 : world') r :
  process_request_try env ui uc w = (Ret r, w1) ->
  (exists cr, r = Dict (rejection_record cr) /\ is_compliant cr = false) \/
  (exists result, r = Object result).
Proof.
  intros H.
  unfold process_request_try, call_validate_request, call_execute_task,
    call_log_interaction in H.
  run_in H.
  - injection H as <- <-. left. eexists. split; [reflexivity |].
    now apply negb_true_iff.
  - injection H as <- <-. right. eexists. reflexivity.
Qed.

(** With [uuid] bound, [process_request] returns on every call, and what
    it returns is the rejection record, the error record with an
    identifier of 36 characters, or the orchestrator's object. *)
Lemma process_request_returns_if_uuid_bound ui uc (w : world') :
  g_uuid g = UuidModule ->
  exists r w1,
    process_request g env ui uc w = (Ret r, w1) /\
    ((exists cr, r = Dict (rejection_record cr) /\ is_compliant cr = false) \/
     (exists error_id,
        r = Dict (error_record error_id) /\ String.length error_id = 36) \/
     (exists result, r = Object result)).
Proof.
  intros Hg. unfold process_request, try_except.
  destruct (process_request_try env ui uc w) as [[r | e] w1] eqn:E.
  - exists r, w1. split; [reflexivity |].
    destruct (process_request_try_Ret ui uc w w1 r E) as [H | H]; auto.
  - rewrite (process_request_except_bound e w1 Hg).
    eexists. eexists. split; [reflexivity |].
    right. left. eexists. split; [reflexivity |]. apply uuid_str_length.
Qed.

(** The one exception that can leave [process_request] is the
    [NameError] of its own handler, when [uuid] is not bound. *)
Lemma process_request_Raise ui uc (w w1 : world') e :
  process_request g env ui uc w = (Raise e, w1) ->
  g_uuid g = UuidUnbound /\ e = NameError "uuid".
Proof.
  intros H. destruct (g_uuid g) eqn:Hg.
  - split; [reflexivity |].
    unfold process_request, try_except in H.
    destruct (process_request_try env ui uc w) as [[r | e0] w0]; [discriminate |].
    rewrite (process_request_except_unbound e0 w0 Hg) in H. congruence.
  - destruct (process_request_returns_if_uuid_bound ui uc w Hg)
      as (r & w2 & E & _).
    rewrite E in H. discriminate.
Qed.

End FacadeProperties.

(** * The properties on the test double *)

Import Double.

(** The rejection on the spec's scenario: the compliance check rejects
    "list open invoices". *)
Lemma rejected_request_stops_at_validation_witness :
  (compliance_manager (self constructed) = Some 1 /\
   validate_request (collaborators_of rejecting) 1 user_input user_context
     (collab constructed) = (Ret non_compliant, []) /\
   is_compliant non_compliant = false) /\
  exists d w1 t,
    process_request globals_imported (collaborators_of rejecting)
      user_input user_context constructed = (Ret (Dict d), w1) /\
    d !! "status" = Some "rejected" /\
    trace w1 = trace constructed ++ t /\
    t = [CallValidateRequest 1 user_input user_context] /\
    count is_execute_task t = 0 /\
    count (is_log_interaction "COMPLIANT") t = 0.
Proof.
  split; [repeat split |].
  apply (rejected_request_stops_at_validation globals_imported
           (collaborators_of rejecting) user_input user_context constructed
           1 non_compliant []); reflexivity.
Defined.

(** The rejection record on the spec's scenario, for the reason
    "contains restricted keyword". *)
Lemma rejected_request_record_witness :
  (compliance_manager (self constructed) = Some 1 /\
   validate_request (collaborators_of rejecting) 1 user_input user_context
     (collab constructed) = (Ret non_compliant, []) /\
   is_compliant non_compliant = false /\
   reason non_compliant = Some "contains restricted keyword") /\
  fst (process_request globals_imported (collaborators_of rejecting)
         user_input user_context constructed)
  = Ret (Dict {[ "status" := "rejected";
                 "message" :=
                   "Request violates corporate policy: contains restricted keyword";
                 "compliance_status" := "NON_COMPLIANT" ]}).
Proof.
  split; [repeat split |].
  apply (rejected_request_record globals_imported
           (collaborators_of rejecting) user_input user_context constructed
           1 non_compliant [] "contains restricted keyword"); reflexivity.
Defined.

(** The compliant branch on the spec's scenario: the orchestrator answers
    with the record "3 invoices found", the audit log gets one line, and
    the caller gets the orchestrator's record. *)
Lemma compliant_request_executes_then_logs_witness :
  (compliance_manager (self constructed) = Some 1 /\
   orchestrator (self constructed) = Some 2 /\
   validate_request (collaborators_of all_well) 1 user_input user_context
     (collab constructed) = (Ret compliant, []) /\
   is_compliant compliant = true /\
   execute_task (collaborators_of all_well) 2 user_input user_context
     compliant [] = (Ret completed, []) /\
   log_interaction (collaborators_of all_well) 1 user_context user_input
     completed "COMPLIANT" [] = (Ret tt, [(user_input, "COMPLIANT")])) /\
  exists w1 t,
    process_request globals_imported (collaborators_of all_well)
      user_input user_context constructed = (Ret (Object completed), w1) /\
    trace w1 = trace constructed ++ t /\
    t = [CallValidateRequest 1 user_input user_context;
         CallExecuteTask 2 user_input user_context compliant;
         CallLogInteraction 1 user_context user_input completed "COMPLIANT"] /\
    count is_execute_task t = 1 /\
    count (is_log_interaction "COMPLIANT") t = 1 /\
    collab w1 = [(user_input, "COMPLIANT")] /\
    self w1 = self constructed.
Proof.
  split; [repeat split |].
  apply (compliant_request_executes_then_logs globals_imported
           (collaborators_of all_well) user_input user_context constructed
           1 2 compliant [] completed [] [(user_input, "COMPLIANT")]);
    reflexivity.
Defined.


(** The exit code on the double.  With [datetime] bound to the class by
    the host and every probe answering, the construction and the health
    check return and the exit code is 0; with a [health_check] that
    reports a degraded system it is 1; when the construction raises it is
    1; and run as a script it is 1 although all is well. *)
Lemma main_exit_code_witness :
  fst (main globals_patched (collaborators_of all_well) fresh) = Ret 0%Z /\
  fst (main_over
         (new_OpenDelek (collaborators_of all_well) default_config_path)
         (reporting degraded_report) fresh) = Ret 1%Z /\
  fst (main globals_patched (collaborators_of construction_fails) fresh)
  = Ret 1%Z /\
  fst (main globals_run_as_script (collaborators_of all_well) fresh)
  = Ret 1%Z.
Proof.
  split; [| split; [| split]].
  - apply (proj1 (proj1 (main_exit_code globals_patched
                           (collaborators_of all_well) fresh))).
    eexists. split; [eexists; eexists; split |].
    + vm_compute. reflexivity.
    + vm_compute. reflexivity.
    + reflexivity.
  - apply (proj1 (proj2 (proj2
             (proj1 (proj2 (main_exit_code globals_patched
                              (collaborators_of all_well) fresh))
                (reporting degraded_report))))
           degraded_report).
    + eexists. eexists. split; [vm_compute; reflexivity | reflexivity].
    + discriminate.
  - eapply (proj1 (proj2 (proj2 (proj2
              (proj1 (main_exit_code globals_patched
                        (collaborators_of construction_fails) fresh)))))
            boom).
    vm_compute. reflexivity.
  - apply (proj2 (proj2 (main_exit_code globals_run_as_script
                           (collaborators_of all_well) fresh))).
    discriminate.
Defined.

(** A construction that succeeds, on the double. *)
Lemma collaborator_references_assigned_once_witness :
  exists w1,
    new_OpenDelek (collaborators_of all_well) default_config_path fresh
    = (Ret tt, w1) /\
    exists cfg cm o t,
      self w1 = {| config := Some cfg;
                   compliance_manager := Some cm;
                   orchestrator := Some o |} /\
      trace w1 = trace fresh ++ t /\
      count (is_setattr "config") t = 1 /\
      count (is_setattr "compliance_manager") t = 1 /\
      count (is_setattr "orchestrator") t = 1 /\
      count is_any_setattr t = 3.
Proof.
  eexists. split; [vm_compute; reflexivity |].
  apply (proj1 (collaborator_references_assigned_once globals_imported
                  (collaborators_of all_well))
           default_config_path fresh).
  vm_compute. reflexivity.
Defined.

(** * Where the code departs from its contract *)

(** C4: with the module imported, as the tests and the README import it,
    an exception from [validate_request], from [execute_task] or from
    [log_interaction] is not turned into the error record: the handler
    raises [NameError], because [uuid] is imported in the [__main__] block
    only. *)
Theorem collaborator_exception_becomes_NameError_when_imported :
  fst (process_request globals_imported (collaborators_of validate_fails)
         user_input user_context constructed) = Raise (NameError "uuid") /\
  fst (process_request globals_imported (collaborators_of execute_fails)
         user_input user_context constructed) = Raise (NameError "uuid") /\
  fst (process_request globals_imported (collaborators_of log_fails)
         user_input user_context constructed) = Raise (NameError "uuid").
Proof. vm_compute. repeat split. Qed.

(** C5: [process_request] does not return on every call.  With the
    module imported and [execute_task] raising, the caller gets no record:
    the call raises the handler's [NameError], after the facade has logged
    the collaborator's exception. *)
Theorem process_request_raises_when_imported :
  let run :=
    process_request globals_imported (collaborators_of execute_fails)
      user_input user_context constructed in
  fst run = Raise (NameError "uuid") /\
  (forall r, fst run <> Ret r) /\
  trace (snd run) =
    [CallValidateRequest 1 user_input user_context;
     CallExecuteTask 2 user_input user_context compliant;
     LoggerError "Error processing request: boom"].
Proof.
  cbv zeta.
  pose proof (RaisesExecute (collaborators_of execute_fails) user_input
                user_context constructed 1 2 compliant [] boom []
                eq_refl eq_refl eq_refl eq_refl eq_refl) as H.
  rewrite (failing_request_uuid_unbound globals_imported _ _ _ _ _ _
             eq_refl H).
  split; [reflexivity |]. split; [intros r Hr; discriminate Hr | reflexivity].
Qed.

(** C10: when [log_interaction] raises after [execute_task] has
    returned, the orchestrator's result is not what the caller gets; with
    the module imported the caller gets the handler's [NameError], not the
    error record, after the facade has called [execute_task] and
    [log_interaction] once each. *)
Theorem log_failure_discards_result_and_raises_when_imported :
  let run :=
    process_request globals_imported (collaborators_of log_fails)
      user_input user_context constructed in
  fst run = Raise (NameError "uuid") /\
  trace (snd run) =
    [CallValidateRequest 1 user_input user_context;
     CallExecuteTask 2 user_input user_context compliant;
     CallLogInteraction 1 user_context user_input completed "COMPLIANT";
     LoggerError "Error processing request: boom"].
Proof.
  cbv zeta.
  pose proof (RaisesLog (collaborators_of log_fails) user_input user_context
                constructed 1 2 compliant [] completed [] boom []
                eq_refl eq_refl eq_refl eq_refl eq_refl eq_refl) as H.
  rewrite (failing_request_uuid_unbound globals_imported _ _ _ _ _ _
             eq_refl H).
  split; reflexivity.
Qed.

(** C6: [health_check] does not give the report the contract asks
    for.  With the module imported and all four probes answering [True] it
    raises [NameError] ([datetime] is not bound); run as a script it raises
    [AttributeError] (the module [datetime] has no [now]); and where a host
    has bound [datetime] to the class, the status is "healthy" although the
    AI-backend probe has answered [False]. *)
Theorem health_check_departs_from_contract :
  fst (health_check globals_imported (collaborators_of all_well) constructed)
  = Raise (NameError "datetime") /\
  fst (health_check globals_run_as_script (collaborators_of all_well)
         constructed)
  = Raise (AttributeError_module "datetime" "now") /\
  fst (health_check globals_patched (collaborators_of cortex_down) constructed)
  = Ret {| status := "healthy";
           components :=
             {[ "snowflake_connection" := true;
                "cortex_ai" := false;
                "compliance_system" := true;
                "container_services" := true ]};
           timestamp := "2024-01-01T00:00:00.000000" |}.
Proof. vm_compute. repeat split. Qed.


(** * Further properties of the facade *)

Section FacadeFurther.

Context {UserContext TaskResult Config Compliance Orchestrator : Type}.
Context {CollabState : Type}.

Abbreviation world' :=
  (@world UserContext TaskResult Config Compliance Orchestrator CollabState).
Abbreviation collaborators' :=
  (@collaborators UserContext TaskResult Config Compliance Orchestrator
                  CollabState).
Abbreviation M' :=
  (@M UserContext TaskResult Config Compliance Orchestrator CollabState).
Abbreviation event' :=
  (@event UserContext TaskResult Config Compliance Orchestrator).

Variable g : module_globals.
Variable env : collaborators'.

(** ** Which events a computation can add *)

Lemma emits_only_ret {A} (p : event' -> bool) (a : A) :
  emits_only p (ret a : M' A).
Proof. intros w. exists []. now rewrite app_nil_r. Qed.

Lemma emits_only_raise {A} (p : event' -> bool) e :
  emits_only p (raise e : M' A).
Proof. intros w. exists []. now rewrite app_nil_r. Qed.

Lemma emits_only_emit (p : event' -> bool) ev :
  p ev = true -> emits_only p (emit ev : M' unit).
Proof. intros H w. exists [ev]. simpl. now rewrite H. Qed.

Lemma emits_only_setattr (p : event' -> bool) attr upd :
  p (SetAttr attr) = true -> emits_only p (setattr attr upd : M' unit).
Proof. intros H w. exists [SetAttr attr]. simpl. now rewrite H. Qed.

Lemma emits_only_call {A} (p : event' -> bool)
    (f : CollabState -> outcome A * CollabState) :
  emits_only p (call f : M' A).
Proof.
  intros w. unfold call. destruct (f (collab w)) as [o s]. simpl.
  exists []. now rewrite app_nil_r.
Qed.

Lemma emits_only_getattr {A} (p : event' -> bool) attr
    (proj : OpenDelek -> option A) :
  emits_only p (getattr attr proj : M' A).
Proof.
  intros w. unfold getattr.
  destruct (proj (self w)); simpl; exists []; now rewrite app_nil_r.
Qed.

Lemma emits_only_bind {A B} (p : event' -> bool) (m : M' A) (k : A -> M' B) :
  emits_only p m -> (forall a, emits_only p (k a)) -> emits_only p (bind m k).
Proof.
  intros Hm Hk w. unfold bind. destruct (Hm w) as [t [Ht Hp]].
  destruct (m w) as [[a | e] w1]; simpl in *.
  - destruct (Hk a w1) as [t1 [Ht1 Hp1]]. exists (t ++ t1).
    split; [rewrite Ht1, Ht; now rewrite app_assoc |].
    rewrite forallb_app. now rewrite Hp, Hp1.
  - now exists t.
Qed.

Lemma emits_only_try_except {A} (p : event' -> bool) (m : M' A)
    (h : exn -> M' A) :
  emits_only p m -> (forall e, emits_only p (h e)) ->
  emits_only p (try_except m h).
Proof.
  intros Hm Hh w. unfold try_except. destruct (Hm w) as [t [Ht Hp]].
  destruct (m w) as [[a | e] w1]; simpl in *.
  - now exists t.
  - destruct (Hh e w1) as [t1 [Ht1 Hp1]]. exists (t ++ t1).
    split; [rewrite Ht1, Ht; now rewrite app_assoc |].
    rewrite forallb_app. now rewrite Hp, Hp1.
Qed.

Lemma emits_only_if {A} (p : event' -> bool) (b : bool) (m1 m2 : M' A) :
  emits_only p m1 -> emits_only p m2 -> emits_only p (if b then m1 else m2).
Proof. now destruct b. Qed.

Lemma emits_only_str_uuid_uuid4 (p : event' -> bool) :
  emits_only p (str_uuid_uuid4 g env).
Proof.
  unfold str_uuid_uuid4. destruct (g_uuid g).
  - apply emits_only_raise.
  - intros w. simpl. exists []. now rewrite app_nil_r.
Qed.

Lemma emits_only_datetime_now_isoformat (p : event' -> bool) :
  emits_only p (datetime_now_isoformat g env).
Proof.
  unfold datetime_now_isoformat. destruct (g_datetime g).
  - apply emits_only_raise.
  - apply emits_only_raise.
  - intros w. simpl. exists []. now rewrite app_nil_r.
Qed.

Ltac emits :=
  repeat first
    [ apply emits_only_bind; [| intros ?]
    | apply emits_only_try_except; [| intros ?]
    | apply emits_only_if
    | apply emits_only_emit; reflexivity
    | apply emits_only_setattr; reflexivity
    | apply emits_only_ret
    | apply emits_only_raise
    | apply emits_only_call
    | apply emits_only_getattr
    | apply emits_only_str_uuid_uuid4
    | apply emits_only_datetime_now_isoformat ].

Lemma process_request_emits ui uc :
  emits_only request_or_error_log (process_request g env ui uc).
Proof.
  unfold process_request, process_request_try, process_request_except,
    call_validate_request, call_execute_task, call_log_interaction.
  emits.
Qed.

Lemma health_check_emits_probes : emits_only is_probe (health_check g env).
Proof.
  unfold health_check, call_test_connection, call_test_cortex_ai,
    call_compliance_health_check, call_test_containers.
  emits.
Qed.

Lemma new_OpenDelek_emits path :
  emits_only construction_event (new_OpenDelek env path).
Proof.
  intros w. unfold new_OpenDelek.
  assert (H : emits_only construction_event (__init__ env path)).
  { unfold __init__, new_SnowflakeConfig, new_ComplianceManager,
      new_DelekOrchestrator.
    emits. }
  apply (H (World OpenDelek_blank (collab w) (trace w)
                  (urandom_reads w) (clock_reads w))).
Qed.

(** X1: each method keeps to its own business.  Whatever the
    collaborators do, [process_request] adds to the trace only calls of
    [validate_request], [execute_task], [log_interaction] and its error
    log; [health_check] adds only probe calls; the constructor adds only
    constructor calls, attribute assignments and log lines. *)
Theorem methods_keep_to_their_collaborator_calls :
  (forall ui uc, emits_only request_or_error_log (process_request g env ui uc)) /\
  emits_only is_probe (health_check g env) /\
  (forall path, emits_only construction_event (new_OpenDelek env path)).
Proof.
  split; [exact process_request_emits |].
  split; [exact health_check_emits_probes | exact new_OpenDelek_emits].
Qed.

(** Unfold the monad and split on every answer, in the goal. *)
Ltac run :=
  unfold bind, try_except, ret, raise, emit, call, getattr, setattr; simpl;
  repeat match goal with
         | |- context [match ?x with _ => _ end] =>
             lazymatch x with
             | context [match _ with _ => _ end] => fail
             | _ => destruct x eqn:?; simpl
             end
         end.

Ltac added_events :=
  rewrite <- ?app_assoc; simpl; eexists; split; [reflexivity |].

(** X2: in one call of [process_request] each request method is called
    at most once, [execute_task] only after [validate_request] and
    [log_interaction] only after [execute_task]; and [log_interaction] is
    never called with a compliance status other than "COMPLIANT". *)
Theorem request_methods_called_at_most_once_in_order ui uc (w : world') :
  exists t,
    trace (snd (process_request g env ui uc w)) = trace w ++ t /\
    count is_validate_request t <= 1 /\
    count is_execute_task t <= count is_validate_request t /\
    count is_any_log_interaction t <= count is_execute_task t /\
    count (is_log_interaction "COMPLIANT") t = count is_any_log_interaction t.
Proof.
  unfold process_request, process_request_try, process_request_except,
    call_validate_request, call_execute_task, call_log_interaction,
    str_uuid_uuid4.
  destruct (g_uuid g); run; added_events; unfold count; simpl; lia.
Qed.

(** ** The containment boundary of [process_request] *)

Lemma error_record_status error_id :
  error_record error_id !! "status" = Some "error".
Proof. unfold error_record. by simplify_map_eq. Qed.

Lemma rejection_record_status' cr :
  rejection_record cr !! "status" = Some "rejected".
Proof. unfold rejection_record. by simplify_map_eq. Qed.

(** The [try] suite reads neither the random source nor the clock. *)
Lemma process_request_try_reads ui uc (w : world') :
  urandom_reads (snd (process_request_try env ui uc w)) = urandom_reads w /\
  clock_reads (snd (process_request_try env ui uc w)) = clock_reads w.
Proof.
  unfold process_request_try, call_validate_request, call_execute_task,
    call_log_interaction.
  run; split; reflexivity.
Qed.

Lemma process_request_try_Raise_bound ui uc (w w0 : world') e :
  g_uuid g = UuidModule ->
  process_request_try env ui uc w = (Raise e, w0) ->
  process_request g env ui uc w
  = (Ret (Dict (error_record
                  (uuid_str (uuid_of_random (os_urandom env (urandom_reads w)))))),
     World (self w0) (collab w0)
           (trace w0 ++ [LoggerError ("Error processing request: " +:+ exn_str e)])
           (S (urandom_reads w)) (clock_reads w0)).
Proof.
  intros Hg H. unfold process_request, try_except. rewrite H.
  unfold process_request_except, str_uuid_uuid4. rewrite Hg.
  destruct (process_request_try_reads ui uc w) as [Hr _].
  rewrite H in Hr. simpl in Hr.
  unfold bind, emit, ret. simpl. now rewrite Hr.
Qed.

(** X3: with the global [uuid] bound, [process_request] returns on every
    call, whatever the collaborators return or raise, and what it returns
    is the rejection record (status "rejected"), the error record (status
    "error", with an identifier of 36 characters) or the orchestrator's
    own object. *)
Theorem process_request_contains_exceptions ui uc (w : world') :
  g_uuid g = UuidModule ->
  exists r w1,
    process_request g env ui uc w = (Ret r, w1) /\
    ((exists cr,
        r = Dict (rejection_record cr) /\ is_compliant cr = false /\
        rejection_record cr !! "status" = Some "rejected") \/
     (exists error_id,
        r = Dict (error_record error_id) /\ String.length error_id = 36 /\
        error_record error_id !! "status" = Some "error") \/
     (exists result, r = Object result)).
Proof.
  intros Hg.
  destruct (process_request_returns_if_uuid_bound g env ui uc w Hg)
    as (r & w1 & E & [(cr & -> & Hc) | [(id & -> & Hl) | (res & ->)]]).
  - exists (Dict (rejection_record cr)), w1. split; [exact E |]. left.
    exists cr. split; [reflexivity |]. split; [exact Hc |].
    apply rejection_record_status'.
  - exists (Dict (error_record id)), w1. split; [exact E |]. right. left.
    exists id. split; [reflexivity |]. split; [exact Hl |].
    apply error_record_status.
  - exists (Object res), w1. split; [exact E |]. right. right. now exists res.
Qed.

(** X4: an exception that leaves [process_request] is never a
    collaborator's: it is the [NameError] of the handler, the global
    [uuid] is unbound, and the exception the [try] suite had raised has
    gone to the error log. *)
Theorem escaping_exception_is_the_handlers ui uc (w w1 : world') e :
  process_request g env ui uc w = (Raise e, w1) ->
  g_uuid g = UuidUnbound /\
  e = NameError "uuid" /\
  exists e0 w0,
    process_request_try env ui uc w = (Raise e0, w0) /\
    w1 = after_event w0
           (LoggerError ("Error processing request: " +:+ exn_str e0)).
Proof.
  intros H.
  destruct (process_request_Raise g env ui uc w w1 e H) as [Hg ->].
  split; [exact Hg |]. split; [reflexivity |].
  unfold process_request, try_except in H.
  destruct (process_request_try env ui uc w) as [[r | e0] w0] eqn:E;
    [discriminate |].
  rewrite (process_request_except_unbound g env e0 w0 Hg) in H.
  injection H as <-. now exists e0, w0.
Qed.

(** X5: the error record tells the caller nothing about the exception.
    With [uuid] bound, whichever exception the [try] suite raises, the
    record returned is the fixed message with the next UUID of the random
    source; the text of the exception goes to the error log only. *)
Theorem error_record_is_independent_of_the_exception
    ui uc (w w0 : world') e :
  g_uuid g = UuidModule ->
  process_request_try env ui uc w = (Raise e, w0) ->
  exists w1,
    process_request g env ui uc w
    = (Ret (Dict {[ "status" := "error";
                    "message" := "An error occurred processing your request";
                    "error_id" :=
                      uuid_str (uuid_of_random
                                  (os_urandom env (urandom_reads w))) ]}),
       w1) /\
    trace w1
    = trace w0 ++ [LoggerError ("Error processing request: " +:+ exn_str e)] /\
    collab w1 = collab w0 /\
    urandom_reads w1 = S (urandom_reads w).
Proof.
  intros Hg H. rewrite (process_request_try_Raise_bound ui uc w w0 e Hg H).
  eexists. split; [reflexivity |]. repeat split.
Qed.

(** X6: with [uuid] bound, two calls in a row that both fail return
    error records with different identifiers, provided the two readings of
    the random source give different UUIDs. *)
Theorem consecutive_failures_get_different_error_ids
    ui uc ui' uc' (w w0 w0' : world') e e' :
  g_uuid g = UuidModule ->
  process_request_try env ui uc w = (Raise e, w0) ->
  process_request_try env ui' uc' (snd (process_request g env ui uc w))
  = (Raise e', w0') ->
  uuid_of_random (os_urandom env (urandom_reads w))
  <> uuid_of_random (os_urandom env (S (urandom_reads w))) ->
  exists id1 id2,
    fst (process_request g env ui uc w) = Ret (Dict (error_record id1)) /\
    fst (process_request g env ui' uc'
           (snd (process_request g env ui uc w)))
    = Ret (Dict (error_record id2)) /\
    id1 <> id2.
Proof.
  intros Hg H1 H2 Hr.
  rewrite (process_request_try_Raise_bound ui' uc' _ w0' e' Hg H2).
  rewrite (process_request_try_Raise_bound ui uc w w0 e Hg H1). simpl.
  eexists. eexists. split; [reflexivity |]. split; [reflexivity |].
  intros Heq. apply Hr. now apply uuid_str_uuid_of_random_inj.
Qed.

(** ** Construction *)

(** Unfold the monad and split on every answer, in a hypothesis. *)
Ltac run_hyp H :=
  unfold bind, try_except, ret, raise, emit, call, getattr, setattr in H;
  simpl in H;
  repeat match type of H with
         | context [match ?x with _ => _ end] =>
             lazymatch x with
             | context [match _ with _ => _ end] => fail
             | _ =>
                 let E := fresh "E" in
                 destruct x eqn:E; simpl in H; try discriminate H
             end
         end.

(** X7: [OpenDelek(path)] returns exactly when the three constructors
    return, [ComplianceManager] being given the configuration that
    [SnowflakeConfig(path)] returned and [DelekOrchestrator] that
    configuration and that compliance manager; the new facade then holds
    these three objects, whatever instance there was before. *)
Theorem construction_wires_the_collaborators path (w w1 : world') :
  new_OpenDelek env path w = (Ret tt, w1) <->
  exists cfg s1 cm s2 o s3,
    SnowflakeConfig env path (collab w) = (Ret cfg, s1) /\
    ComplianceManager env cfg s1 = (Ret cm, s2) /\
    DelekOrchestrator env cfg cm s2 = (Ret o, s3) /\
    w1 = World {| config := Some cfg;
                  compliance_manager := Some cm;
                  orchestrator := Some o |}
               s3
               (trace w ++
                  [LoggerInfo "Initializing OpenDelek Corporate AI Assistant";
                   NewSnowflakeConfig path;
                   SetAttr "config";
                   NewComplianceManager cfg;
                   SetAttr "compliance_manager";
                   NewDelekOrchestrator cfg cm;
                   SetAttr "orchestrator";
                   LoggerInfo "OpenDelek initialization completed successfully"])
               (urandom_reads w) (clock_reads w).
Proof.
  split.
  - apply new_OpenDelek_Ret.
  - intros (cfg & s1 & cm & s2 & o & s3 & H1 & H2 & H3 & ->).
    unfold new_OpenDelek, __init__, new_SnowflakeConfig,
      new_ComplianceManager, new_DelekOrchestrator.
    unfold bind, try_except, ret, raise, emit, call, getattr, setattr. simpl.
    rewrite H1. simpl. rewrite H2. simpl. rewrite H3. simpl.
    rewrite <- !app_assoc. reflexivity.
Qed.

(** The three ways a construction can fail. *)
Lemma new_OpenDelek_Raise path (w w1 : world') e :
  new_OpenDelek env path w = (Raise e, w1) ->
  let started :=
    [LoggerInfo "Initializing OpenDelek Corporate AI Assistant";
     NewSnowflakeConfig path] in
  let failed :=
    [LoggerError ("Failed to initialize OpenDelek: " +:+ exn_str e)] in
  (SnowflakeConfig env path (collab w) = (Raise e, collab w1) /\
   trace w1 = trace w ++ started ++ failed) \/
  (exists cfg s1,
     SnowflakeConfig env path (collab w) = (Ret cfg, s1) /\
     ComplianceManager env cfg s1 = (Raise e, collab w1) /\
     trace w1
     = trace w ++ started ++
         [SetAttr "config"; NewComplianceManager cfg] ++ failed) \/
  (exists cfg s1 cm s2,
     SnowflakeConfig env path (collab w) = (Ret cfg, s1) /\
     ComplianceManager env cfg s1 = (Ret cm, s2) /\
     DelekOrchestrator env cfg cm s2 = (Raise e, collab w1) /\
     trace w1
     = trace w ++ started ++
         [SetAttr "config"; NewComplianceManager cfg;
          SetAttr "compliance_manager"; NewDelekOrchestrator cfg cm] ++
         failed).
Proof.
  intros H. cbv zeta.
  unfold new_OpenDelek, __init__, new_SnowflakeConfig,
    new_ComplianceManager, new_DelekOrchestrator in H.
  unfold bind, try_except, ret, raise, emit, call, getattr, setattr in H.
  simpl in H.
  destruct (SnowflakeConfig env path (collab w)) as [[cfg | e1] s1] eqn:E1;
    simpl in H.
  - destruct (ComplianceManager env cfg s1) as [[cm | e2] s2] eqn:E2;
      simpl in H.
    + destruct (DelekOrchestrator env cfg cm s2) as [[o | e3] s3] eqn:E3;
        simpl in H; [discriminate |].
      injection H as <- <-. right. right. exists cfg, s1, cm, s2. simpl.
      repeat split; try assumption. now rewrite <- !app_assoc.
    + injection H as <- <-. right. left. exists cfg, s1. simpl.
      repeat split; try assumption. now rewrite <- !app_assoc.
  - injection H as <- <-. left. simpl. split; [reflexivity |].
    now rewrite <- !app_assoc.
Qed.

(** X8: when [OpenDelek(path)] raises, the exception is the one a
    collaborator's constructor raised, unchanged; the constructors after
    it have not been called; and the failure has been logged with the text
    of the exception. *)
Theorem construction_failure_is_logged_and_reraised path (w w1 : world') e :
  new_OpenDelek env path w = (Raise e, w1) ->
  let started :=
    [LoggerInfo "Initializing OpenDelek Corporate AI Assistant";
     NewSnowflakeConfig path] in
  let failed :=
    [LoggerError ("Failed to initialize OpenDelek: " +:+ exn_str e)] in
  (SnowflakeConfig env path (collab w) = (Raise e, collab w1) /\
   trace w1 = trace w ++ started ++ failed) \/
  (exists cfg s1,
     SnowflakeConfig env path (collab w) = (Ret cfg, s1) /\
     ComplianceManager env cfg s1 = (Raise e, collab w1) /\
     trace w1
     = trace w ++ started ++
         [SetAttr "config"; NewComplianceManager cfg] ++ failed) \/
  (exists cfg s1 cm s2,
     SnowflakeConfig env path (collab w) = (Ret cfg, s1) /\
     ComplianceManager env cfg s1 = (Ret cm, s2) /\
     DelekOrchestrator env cfg cm s2 = (Raise e, collab w1) /\
     trace w1
     = trace w ++ started ++
         [SetAttr "config"; NewComplianceManager cfg;
          SetAttr "compliance_manager"; NewDelekOrchestrator cfg cm] ++
         failed).
Proof. apply new_OpenDelek_Raise. Qed.

(** ** The health check *)

(** X9: a report that [health_check] returns maps exactly the four probe
    names to what the four probes answered, the probes having been called
    once each in the order connection, AI backend, compliance, containers,
    each on the state the one before left; its time stamp is the clock's
    reading and its status is "healthy" whatever the answers. *)
Theorem health_report_holds_the_probe_answers (w w1 : world') h :
  health_check g env w = (Ret h, w1) ->
  exists cfg cm o a s1 b s2 c s3 d,
    config (self w) = Some cfg /\
    compliance_manager (self w) = Some cm /\
    orchestrator (self w) = Some o /\
    test_connection env cfg (collab w) = (Ret a, s1) /\
    test_cortex_ai env o s1 = (Ret b, s2) /\
    compliance_health_check env cm s2 = (Ret c, s3) /\
    test_containers env o s3 = (Ret d, collab w1) /\
    components h !! "snowflake_connection" = Some a /\
    components h !! "cortex_ai" = Some b /\
    components h !! "compliance_system" = Some c /\
    components h !! "container_services" = Some d /\
    dom (components h)
    = ({[ "snowflake_connection"; "cortex_ai"; "compliance_system";
          "container_services" ]} : gset string) /\
    status h = "healthy" /\
    timestamp h = now_isoformat env (clock_reads w) /\
    trace w1 = trace w ++ probe_calls cfg o cm.
Proof.
  intros H.
  unfold health_check, call_test_connection, call_test_cortex_ai,
    call_compliance_health_check, call_test_containers,
    datetime_now_isoformat in H.
  destruct (g_datetime g); run_hyp H.
  injection H as <- <-. simpl.
  repeat match goal with
         | E : Some _ = Some _ |- _ => injection E as <-
         end.
  do 10 eexists.
  repeat match goal with |- _ /\ _ => split end;
    try eassumption; try reflexivity.
  unfold probe_calls. now rewrite <- !app_assoc.
Qed.

(** X10: [health_check] stops at the first probe that raises.  On a
    constructed facade, when the probes before the [n]-th have returned
    and the [n]-th raises [e], [health_check] raises [e] having made
    exactly the first [n] of the four probe calls: the trace has grown by
    these [n] calls and by nothing else, the collaborators' state is the
    one the raising probe left, so that no later probe has run, and the
    instance and the clock are untouched.  When all four return, all four
    calls have been made, whatever follows. *)
Theorem health_check_stops_at_the_first_failing_probe
    cfg cm o (w : world') e :
  config (self w) = Some cfg ->
  compliance_manager (self w) = Some cm ->
  orchestrator (self w) = Some o ->
  let stopped_after (n : nat) (s : CollabState)
    : outcome HealthReport * world' :=
    (Raise e,
     World (self w) s (trace w ++ firstn n (probe_calls cfg o cm))
           (urandom_reads w) (clock_reads w)) in
  (forall s1,
     test_connection env cfg (collab w) = (Raise e, s1) ->
     health_check g env w = stopped_after 1 s1) /\
  (forall a s1 s2,
     test_connection env cfg (collab w) = (Ret a, s1) ->
     test_cortex_ai env o s1 = (Raise e, s2) ->
     health_check g env w = stopped_after 2 s2) /\
  (forall a s1 b s2 s3,
     test_connection env cfg (collab w) = (Ret a, s1) ->
     test_cortex_ai env o s1 = (Ret b, s2) ->
     compliance_health_check env cm s2 = (Raise e, s3) ->
     health_check g env w = stopped_after 3 s3) /\
  (forall a s1 b s2 c s3 s4,
     test_connection env cfg (collab w) = (Ret a, s1) ->
     test_cortex_ai env o s1 = (Ret b, s2) ->
     compliance_health_check env cm s2 = (Ret c, s3) ->
     test_containers env o s3 = (Raise e, s4) ->
     health_check g env w = stopped_after 4 s4) /\
  (forall a s1 b s2 c s3 d s4,
     test_connection env cfg (collab w) = (Ret a, s1) ->
     test_cortex_ai env o s1 = (Ret b, s2) ->
     compliance_health_check env cm s2 = (Ret c, s3) ->
     test_containers env o s3 = (Ret d, s4) ->
     trace (snd (health_check g env w)) = trace w ++ probe_calls cfg o cm /\
     collab (snd (health_check g env w)) = s4).
Proof.
  intros Hcfg Hcm Ho. cbv zeta.
  split; [| split; [| split; [| split]]].
  - intros s1 H1. unfold health_check.
    erewrite bind_Ret by (apply getattr_Some; exact Hcfg).
    erewrite bind_Raise by (apply call_test_connection_eq; exact H1).
    reflexivity.
  - intros a s1 s2 H1 H2. unfold health_check.
    erewrite bind_Ret by (apply getattr_Some; exact Hcfg).
    erewrite bind_Ret by (apply call_test_connection_eq; exact H1).
    erewrite bind_Ret by (apply getattr_Some; exact Ho).
    erewrite bind_Raise by (apply call_test_cortex_ai_eq; exact H2).
    unfold after_call. cbn [self collab trace urandom_reads clock_reads].
    now rewrite <- !app_assoc.
  - intros a s1 b s2 s3 H1 H2 H3. unfold health_check.
    erewrite bind_Ret by (apply getattr_Some; exact Hcfg).
    erewrite bind_Ret by (apply call_test_connection_eq; exact H1).
    erewrite bind_Ret by (apply getattr_Some; exact Ho).
    erewrite bind_Ret by (apply call_test_cortex_ai_eq; exact H2).
    erewrite bind_Ret by (apply getattr_Some; exact Hcm).
    erewrite bind_Raise by (apply call_compliance_health_check_eq; exact H3).
    unfold after_call. cbn [self collab trace urandom_reads clock_reads].
    now rewrite <- !app_assoc.
  - intros a s1 b s2 c s3 s4 H1 H2 H3 H4. unfold health_check.
    erewrite bind_Ret by (apply getattr_Some; exact Hcfg).
    erewrite bind_Ret by (apply call_test_connection_eq; exact H1).
    erewrite bind_Ret by (apply getattr_Some; exact Ho).
    erewrite bind_Ret by (apply call_test_cortex_ai_eq; exact H2).
    erewrite bind_Ret by (apply getattr_Some; exact Hcm).
    erewrite bind_Ret by (apply call_compliance_health_check_eq; exact H3).
    erewrite bind_Ret by (apply getattr_Some; exact Ho).
    erewrite bind_Raise by (apply call_test_containers_eq; exact H4).
    unfold after_call. cbn [self collab trace urandom_reads clock_reads].
    now rewrite <- !app_assoc.
  - intros a s1 b s2 c s3 d s4 H1 H2 H3 H4.
    rewrite (health_check_probes_return g env cfg cm o w a s1 b s2 c s3 d s4
               Hcfg Hcm Ho H1 H2 H3 H4).
    unfold after_probes, after_call, probe_calls.
    destruct (g_datetime g);
      cbn [fst snd self collab trace urandom_reads clock_reads];
      now rewrite <- !app_assoc.
Qed.

(** ** The entry point *)

Lemma count_app' (p : event' -> bool) (t1 t2 : list event') :
  count p (t1 ++ t2) = count p t1 + count p t2.
Proof. unfold count. now rewrite List.filter_app, List.length_app. Qed.

Lemma count_cons (p : event' -> bool) ev (t : list event') :
  count p (ev :: t) = (if p ev then 1 else 0) + count p t.
Proof. unfold count. simpl. now destruct (p ev). Qed.

(** Events that all satisfy [p] contain none that satisfies [q], when no
    event satisfies both. *)
Lemma count_excluded (p q : event' -> bool) (t : list event') :
  (forall ev, p ev = true -> q ev = false) ->
  forallb p t = true -> count q t = 0.
Proof.
  intros Hpq. induction t as [| ev t IH]; simpl; [reflexivity |].
  intros H. apply andb_true_iff in H. destruct H as [Hev Ht].
  unfold count in *. simpl. rewrite (Hpq ev Hev). now apply IH.
Qed.

Lemma probe_is_not_print_ready (ev : event') :
  is_probe ev = true -> is_print_ready ev = false.
Proof. now destruct ev. Qed.

Lemma probe_is_not_logger_error (ev : event') :
  is_probe ev = true -> is_logger_error ev = false.
Proof. now destruct ev. Qed.

Lemma construction_is_not_print_ready (ev : event') :
  construction_event ev = true -> is_print_ready ev = false.
Proof. now destruct ev. Qed.

Lemma construction_is_not_probe (ev : event') :
  construction_event ev = true -> is_probe ev = false.
Proof. now destruct ev. Qed.

(** What [main] does after the construction has raised. *)
Lemma main_after_construction_raised (w w1 : world') e :
  new_OpenDelek env default_config_path (after_event w PrintBanner)
  = (Raise e, w1) ->
  main g env w
  = (Ret 1%Z,
     after_event
       (after_event w1
          (LoggerError ("Failed to start OpenDelek: " +:+ exn_str e)))
       (PrintFailed ("Failed to start OpenDelek: " +:+ exn_str e))).
Proof.
  intros H. unfold main, main_over, bind at 1. simpl.
  erewrite try_except_Raise by (apply bind_Raise; exact H).
  reflexivity.
Qed.

Lemma main_after_health_check_raised (w w1 w2 : world') e :
  new_OpenDelek env default_config_path (after_event w PrintBanner)
  = (Ret tt, w1) ->
  health_check g env w1 = (Raise e, w2) ->
  main g env w
  = (Ret 1%Z,
     after_event
       (after_event w2
          (LoggerError ("Failed to start OpenDelek: " +:+ exn_str e)))
       (PrintFailed ("Failed to start OpenDelek: " +:+ exn_str e))).
Proof.
  intros H1 H2. unfold main, main_over, bind at 1. simpl.
  erewrite try_except_Raise; [reflexivity |].
  erewrite bind_Ret by exact H1.
  erewrite bind_Raise by exact H2. reflexivity.
Qed.

Lemma main_after_health_check_returned (w w1 w2 : world') h :
  new_OpenDelek env default_config_path (after_event w PrintBanner)
  = (Ret tt, w1) ->
  health_check g env w1 = (Ret h, w2) ->
  main g env w
  = if String.eqb (status h) "healthy" then
      (Ret 0%Z,
       after_event (after_event w2 (LoggerInfoHealth h)) PrintReady)
    else
      (Ret 1%Z,
       after_event (after_event w2 (LoggerInfoHealth h))
                   (LoggerError "System health check failed")).
Proof.
  intros H1 H2. unfold main, main_over, bind at 1. simpl.
  destruct (String.eqb (status h) "healthy") eqn:Hs;
    (erewrite try_except_Ret; [reflexivity |];
     erewrite bind_Ret by exact H1;
     erewrite bind_Ret by exact H2;
     unfold bind, emit, ret; simpl; rewrite Hs; reflexivity).
Qed.

(** The two ways [main] can end. *)
Lemma main_announces_readiness_exactly_on_exit_0_aux (w : world') :
  exists code t,
    fst (main g env w) = Ret code /\
    trace (snd (main g env w)) = trace w ++ PrintBanner :: t /\
    ((code = 0%Z /\ count is_print_ready t = 1 /\
      count is_logger_error t = 0) \/
     (code = 1%Z /\ count is_print_ready t = 0 /\
      1 <= count is_logger_error t)).
Proof.
  destruct (new_OpenDelek env default_config_path (after_event w PrintBanner))
    as [[[] | e] w1] eqn:E1.
  - destruct (new_OpenDelek_Ret env _ _ _ E1)
      as (cfg & s1 & cm & s2 & o & s3 & _ & _ & _ & Hw1).
    destruct (health_check_emits_probes w1) as (t2 & Ht2 & Hp2).
    destruct (health_check g env w1) as [[h | e] w2] eqn:E2; simpl in Ht2.
    + rewrite (main_after_health_check_returned w w1 w2 h E1 E2).
      destruct (String.eqb (status h) "healthy"); simpl;
        rewrite Ht2, Hw1; simpl; rewrite <- !app_assoc; simpl;
        eexists; eexists; (split; [reflexivity |]);
        (split; [reflexivity |]);
        [left | right]; (split; [reflexivity |]);
        repeat (rewrite count_cons || rewrite count_app');
        rewrite (count_excluded _ _ t2 probe_is_not_print_ready Hp2);
        rewrite (count_excluded _ _ t2 probe_is_not_logger_error Hp2);
        unfold count; simpl; lia.
    + rewrite (main_after_health_check_raised w w1 w2 e E1 E2). simpl.
      rewrite Ht2, Hw1; simpl; rewrite <- !app_assoc; simpl.
      eexists; eexists; (split; [reflexivity |]); (split; [reflexivity |]).
      right. split; [reflexivity |].
      repeat (rewrite count_cons || rewrite count_app').
      rewrite (count_excluded _ _ t2 probe_is_not_print_ready Hp2).
      unfold count; simpl; lia.
  - destruct (new_OpenDelek_emits default_config_path
                (after_event w PrintBanner)) as (t1 & Ht1 & Hp1).
    rewrite E1 in Ht1. simpl in Ht1.
    rewrite (main_after_construction_raised w w1 e E1). simpl.
    rewrite Ht1. rewrite <- !app_assoc; simpl.
    eexists; eexists; (split; [reflexivity |]); (split; [reflexivity |]).
    right. split; [reflexivity |].
    repeat (rewrite count_cons || rewrite count_app').
    rewrite (count_excluded _ _ t1 construction_is_not_print_ready Hp1).
    unfold count; simpl; lia.
Qed.

(** X11: [main] never raises.  After the banner it either announces
    that the platform is ready, logs no error and returns 0, or logs at
    least one error, does not announce readiness and returns 1. *)
Theorem main_announces_readiness_exactly_on_exit_0 (w : world') :
  exists code t,
    fst (main g env w) = Ret code /\
    trace (snd (main g env w)) = trace w ++ PrintBanner :: t /\
    ((code = 0%Z /\ count is_print_ready t = 1 /\
      count is_logger_error t = 0) \/
     (code = 1%Z /\ count is_print_ready t = 0 /\
      1 <= count is_logger_error t)).
Proof. apply main_announces_readiness_exactly_on_exit_0_aux. Qed.

(** X12: when the construction raises, [main] calls no probe, logs the
    failure twice with the text of the exception (once in the constructor,
    once in [main]), prints it and returns 1. *)
Theorem main_reports_a_failed_construction (w w1 : world') e :
  new_OpenDelek env default_config_path (after_event w PrintBanner)
  = (Raise e, w1) ->
  exists t,
    fst (main g env w) = Ret 1%Z /\
    trace (snd (main g env w))
    = trace w ++ PrintBanner :: t ++
        [LoggerError ("Failed to initialize OpenDelek: " +:+ exn_str e);
         LoggerError ("Failed to start OpenDelek: " +:+ exn_str e);
         PrintFailed ("Failed to start OpenDelek: " +:+ exn_str e)] /\
    count is_probe t = 0.
Proof.
  intros E1. rewrite (main_after_construction_raised w w1 e E1). simpl.
  destruct (new_OpenDelek_Raise _ _ _ _ E1)
    as [[_ Ht]
       | [(cfg & s1 & _ & _ & Ht)
         | (cfg & s1 & cm & s2 & _ & _ & _ & Ht)]];
    rewrite Ht; simpl; rewrite <- !app_assoc; simpl.
  - exists [LoggerInfo "Initializing OpenDelek Corporate AI Assistant";
            NewSnowflakeConfig default_config_path].
    repeat split.
  - exists [LoggerInfo "Initializing OpenDelek Corporate AI Assistant";
            NewSnowflakeConfig default_config_path;
            SetAttr "config"; NewComplianceManager cfg].
    repeat split.
  - exists [LoggerInfo "Initializing OpenDelek Corporate AI Assistant";
            NewSnowflakeConfig default_config_path;
            SetAttr "config"; NewComplianceManager cfg;
            SetAttr "compliance_manager"; NewDelekOrchestrator cfg cm].
    repeat split.
Qed.

End FacadeFurther.

(** ** The further properties on the test double *)

(** A closed equation between a run and its result, by evaluation. *)
Ltac evaluated :=
  lazymatch goal with
  | |- ?run = _ => vm_cast_no_check (@eq_refl _ run)
  end.

(** A request whose validation raises, on a host that has bound [uuid]:
    the caller gets a record. *)
Lemma process_request_contains_exceptions_witness :
  g_uuid globals_patched = UuidModule /\
  exists r w1,
    process_request globals_patched (collaborators_of validate_fails)
      user_input user_context constructed = (Ret r, w1) /\
    ((exists cr,
        r = Dict (rejection_record cr) /\ is_compliant cr = false /\
        rejection_record cr !! "status" = Some "rejected") \/
     (exists error_id,
        r = Dict (error_record error_id) /\ String.length error_id = 36 /\
        error_record error_id !! "status" = Some "error") \/
     (exists result, r = Object result)).
Proof.
  split; [reflexivity |].
  apply (process_request_contains_exceptions globals_patched
           (collaborators_of validate_fails) user_input user_context
           constructed).
  reflexivity.
Defined.

(** The module imported and [execute_task] raising: what leaves
    [process_request] is the [NameError], and "boom" is in the error
    log. *)
Lemma escaping_exception_is_the_handlers_witness :
  exists e w1,
    process_request globals_imported (collaborators_of execute_fails)
      user_input user_context constructed = (Raise e, w1) /\
    g_uuid globals_imported = UuidUnbound /\
    e = NameError "uuid" /\
    exists e0 w0,
      process_request_try (collaborators_of execute_fails)
        user_input user_context constructed = (Raise e0, w0) /\
      w1 = after_event w0
             (LoggerError ("Error processing request: " +:+ exn_str e0)).
Proof.
  exists (NameError "uuid").
  exists (snd (process_request globals_imported
                 (collaborators_of execute_fails) user_input user_context
                 constructed)).
  split; [evaluated |].
  apply (escaping_exception_is_the_handlers globals_imported
           (collaborators_of execute_fails) user_input user_context
           constructed).
  evaluated.
Defined.

(** [log_interaction] raising "boom" on a host that has bound [uuid]: the
    record does not mention "boom". *)
Lemma error_record_is_independent_of_the_exception_witness :
  exists w0,
    (g_uuid globals_patched = UuidModule /\
     process_request_try (collaborators_of log_fails) user_input user_context
       constructed = (Raise boom, w0)) /\
    exists w1,
      process_request globals_patched (collaborators_of log_fails)
        user_input user_context constructed
      = (Ret (Dict {[ "status" := "error";
                      "message" := "An error occurred processing your request";
                      "error_id" :=
                        uuid_str (uuid_of_random
                                    (os_urandom (collaborators_of log_fails)
                                       (urandom_reads constructed))) ]}),
         w1) /\
      trace w1
      = trace w0 ++
          [LoggerError ("Error processing request: " +:+ exn_str boom)] /\
      collab w1 = collab w0 /\
      urandom_reads w1 = S (urandom_reads constructed).
Proof.
  exists (snd (process_request_try (collaborators_of log_fails) user_input
                 user_context constructed)).
  split; [split; [reflexivity | evaluated] |].
  apply (error_record_is_independent_of_the_exception globals_patched
           (collaborators_of log_fails) user_input user_context constructed
           _ boom eq_refl).
  evaluated.
Defined.

(** Two requests in a row whose validation raises. *)
Lemma consecutive_failures_get_different_error_ids_witness :
  exists id1 id2,
    fst (process_request globals_patched (collaborators_of validate_fails)
           user_input user_context constructed)
    = Ret (Dict (error_record id1)) /\
    fst (process_request globals_patched (collaborators_of validate_fails)
           user_input user_context
           (snd (process_request globals_patched
                   (collaborators_of validate_fails)
                   user_input user_context constructed)))
    = Ret (Dict (error_record id2)) /\
    id1 <> id2.
Proof.
  apply (consecutive_failures_get_different_error_ids globals_patched
           (collaborators_of validate_fails) user_input user_context
           user_input user_context constructed
           (snd (process_request_try (collaborators_of validate_fails)
                   user_input user_context constructed))
           (snd (process_request_try (collaborators_of validate_fails)
                   user_input user_context
                   (snd (process_request globals_patched
                           (collaborators_of validate_fails)
                           user_input user_context constructed))))
           boom boom eq_refl).
  - evaluated.
  - evaluated.
  - intros H. vm_compute in H. discriminate H.
Defined.

(** [SnowflakeConfig(...)] raising "boom". *)
Lemma construction_failure_is_logged_and_reraised_witness :
  exists w1,
    new_OpenDelek (collaborators_of construction_fails) default_config_path
      fresh = (Raise boom, w1) /\
    SnowflakeConfig (collaborators_of construction_fails)
      default_config_path (collab fresh) = (Raise boom, collab w1) /\
    trace w1
    = [LoggerInfo "Initializing OpenDelek Corporate AI Assistant";
       NewSnowflakeConfig default_config_path;
       LoggerError "Failed to initialize OpenDelek: boom"].
Proof.
  exists (snd (new_OpenDelek (collaborators_of construction_fails)
                 default_config_path fresh)).
  assert (H : new_OpenDelek (collaborators_of construction_fails)
                default_config_path fresh
              = (Raise boom,
                 snd (new_OpenDelek (collaborators_of construction_fails)
                        default_config_path fresh)))
    by evaluated.
  split; [exact H |].
  destruct (construction_failure_is_logged_and_reraised
              (collaborators_of construction_fails) default_config_path
              fresh _ boom H)
    as [H1 | [(cfg & s1 & H1 & _) | (cfg & s1 & cm & s2 & H1 & _)]].
  - exact H1.
  - discriminate H1.
  - discriminate H1.
Defined.

(** The report on a host that has bound [datetime] to the class, the AI
    backend's probe answering [False]: the status is "healthy" all the
    same. *)
Lemma health_report_holds_the_probe_answers_witness :
  exists h w1,
    health_check globals_patched (collaborators_of cortex_down) constructed
    = (Ret h, w1) /\
    components h !! "cortex_ai" = Some false /\
    status h = "healthy" /\
    trace w1 = probe_calls "config/snowflake_config.toml" 2 1.
Proof.
  exists {| status := "healthy";
            components := {[ "snowflake_connection" := true;
                             "cortex_ai" := false;
                             "compliance_system" := true;
                             "container_services" := true ]};
            timestamp := "2024-01-01T00:00:00.000000" |}.
  exists (snd (health_check globals_patched (collaborators_of cortex_down)
                 constructed)).
  assert (H : health_check globals_patched (collaborators_of cortex_down)
                constructed
              = (Ret {| status := "healthy";
                        components := {[ "snowflake_connection" := true;
                                         "cortex_ai" := false;
                                         "compliance_system" := true;
                                         "container_services" := true ]};
                        timestamp := "2024-01-01T00:00:00.000000" |},
                 snd (health_check globals_patched
                        (collaborators_of cortex_down) constructed)))
    by evaluated.
  split; [exact H |].
  destruct (health_report_holds_the_probe_answers globals_patched
              (collaborators_of cortex_down) constructed _ _ H)
    as (cfg & cm & o & a & s1 & b & s2 & c & s3 & d & Hcfg & Hcm & Ho & _
        & Hb & _ & _ & _ & Hcortex & _ & _ & _ & Hstatus & _ & Htrace).
  injection Hcfg as <-. injection Hcm as <-. injection Ho as <-.
  injection Hb as <- _.
  split; [exact Hcortex |]. split; [exact Hstatus | exact Htrace].
Defined.

(** The second probe raising "boom": two probes are called, the
    compliance probe and the container probe are not. *)
Lemma health_check_stops_at_the_first_failing_probe_witness :
  (config (self constructed) = Some "config/snowflake_config.toml" /\
   compliance_manager (self constructed) = Some 1 /\
   orchestrator (self constructed) = Some 2 /\
   test_connection
     (collaborators_of
        (probes_scripted (Ret true) (Raise boom) (Ret true) (Ret true)))
     "config/snowflake_config.toml" (collab constructed) = (Ret true, []) /\
   test_cortex_ai
     (collaborators_of
        (probes_scripted (Ret true) (Raise boom) (Ret true) (Ret true)))
     2 [] = (Raise boom, [])) /\
  health_check globals_run_as_script
    (collaborators_of
       (probes_scripted (Ret true) (Raise boom) (Ret true) (Ret true)))
    constructed
  = (Raise boom,
     World (self constructed) []
           (trace constructed ++
              firstn 2 (probe_calls "config/snowflake_config.toml" 2 1))
           (urandom_reads constructed) (clock_reads constructed)).
Proof.
  split; [repeat split |].
  apply (proj1 (proj2
           (health_check_stops_at_the_first_failing_probe
              globals_run_as_script
              (collaborators_of
                 (probes_scripted (Ret true) (Raise boom) (Ret true)
                                  (Ret true)))
              "config/snowflake_config.toml" 1 2 constructed boom
              eq_refl eq_refl eq_refl))
         true [] []); reflexivity.
Defined.

(** [main] run as a script, [SnowflakeConfig(...)] raising "boom". *)
Lemma main_reports_a_failed_construction_witness :
  exists w1,
    new_OpenDelek (collaborators_of construction_fails) default_config_path
      (after_event fresh PrintBanner) = (Raise boom, w1) /\
    exists t,
      fst (main globals_run_as_script (collaborators_of construction_fails)
             fresh) = Ret 1%Z /\
      trace (snd (main globals_run_as_script
                    (collaborators_of construction_fails) fresh))
      = trace fresh ++ PrintBanner :: t ++
          [LoggerError ("Failed to initialize OpenDelek: " +:+ exn_str boom);
           LoggerError ("Failed to start OpenDelek: " +:+ exn_str boom);
           PrintFailed ("Failed to start OpenDelek: " +:+ exn_str boom)] /\
      count is_probe t = 0.
Proof.
  exists (snd (new_OpenDelek (collaborators_of construction_fails)
                 default_config_path (after_event fresh PrintBanner))).
  assert (H : new_OpenDelek (collaborators_of construction_fails)
                default_config_path (after_event fresh PrintBanner)
              = (Raise boom,
                 snd (new_OpenDelek (collaborators_of construction_fails)
                        default_config_path (after_event fresh PrintBanner))))
    by evaluated.
  split; [exact H |].
  exact (main_reports_a_failed_construction globals_run_as_script
           (collaborators_of construction_fails) fresh _ boom H).
Defined.


(** * Properties of the generator *)

Section GeneratorProperties.

Import Generator.

Implicit Types (fs : gmap path node) (p q : path).

Lemma resolve_None_is_directory fs p :
  resolve fs p = None -> node_at fs p = Some Directory.
Proof.
  destruct p as [| c above]; simpl; [reflexivity |].
  destruct (resolve fs above); [discriminate |].
  destruct (fs !! (c :: above)) as [[| content] |]; intros H;
    first [reflexivity | discriminate H].
Qed.

Lemma directory_resolves fs p :
  well_formed fs -> node_at fs p = Some Directory -> resolve fs p = None.
Proof.
  intros [_ Hwf]. induction p as [| c above IH]; simpl; [reflexivity |].
  intros H. rewrite (IH (Hwf c above Directory H)). now rewrite H.
Qed.

Lemma stored_parent_resolves fs p n :
  well_formed fs -> node_at fs p = Some n -> resolve fs (parent p) = None.
Proof.
  intros Hwf H. destruct p as [| c above]; simpl; [reflexivity |].
  apply directory_resolves; [exact Hwf |]. destruct Hwf as [_ Hwf].
  now apply (Hwf c above n).
Qed.

(** Where a directory on the way is missing, nothing is stored below. *)
Lemma resolve_missing fs p :
  well_formed fs -> resolve fs p = Some FileNotFoundError ->
  node_at fs p = None.
Proof.
  intros Hwf H. destruct (node_at fs p) as [n |] eqn:E; [| reflexivity].
  destruct p as [| c above]; simpl in *; [discriminate |].
  pose proof (stored_parent_resolves fs (c :: above) n Hwf E) as R.
  simpl in R. rewrite R, E in H. destruct n; discriminate.
Qed.

(** A walk that stops at a regular file. *)
Lemma resolve_not_a_directory fs p :
  resolve fs p = Some NotADirectoryError ->
  exists q content, on_the_way q p /\ fs !! q = Some (File content).
Proof.
  induction p as [| c above IH]; simpl; [discriminate |].
  destruct (resolve fs above) as [e |] eqn:E.
  - intros [= ->]. destruct (IH eq_refl) as (q & content & Hq & Hf).
    exists q, content. split; [now apply suffix_cons_r | exact Hf].
  - destruct (fs !! (c :: above)) as [[| content] |] eqn:Ef; try discriminate.
    intros _. exists (c :: above), content. split; [reflexivity | exact Ef].
Qed.

Lemma resolve_errors fs p e :
  resolve fs p = Some e -> e = FileNotFoundError \/ e = NotADirectoryError.
Proof.
  revert e. induction p as [| c above IH]; simpl; [discriminate |].
  intros e. destruct (resolve fs above) as [e1 |].
  - intros [= <-]. now apply IH.
  - destruct (fs !! (c :: above)) as [[| content] |]; intros [= <-]; auto.
Qed.

Lemma on_the_way_cons_inv q c above :
  on_the_way q (c :: above) -> q = c :: above \/ on_the_way q above.
Proof.
  intros [k Hk]. destruct k as [| x k]; simpl in Hk.
  - left. congruence.
  - right. injection Hk as _ ->. now exists k.
Qed.

Lemma make_dirs_on_the_way p fs q :
  q <> [] -> on_the_way q p -> make_dirs p fs !! q = Some Directory.
Proof.
  intros Hq. induction p as [| c above IH]; simpl; intros H.
  - apply suffix_nil_inv in H. contradiction.
  - destruct (decide (q = c :: above)) as [-> | Hne].
    + apply lookup_insert_eq.
    + rewrite lookup_insert_ne by congruence. apply IH.
      destruct (on_the_way_cons_inv _ _ _ H) as [-> | Hs];
        [contradiction | exact Hs].
Qed.

Lemma make_dirs_elsewhere p fs q :
  ~ on_the_way q p -> make_dirs p fs !! q = fs !! q.
Proof.
  induction p as [| c above IH]; simpl; intros H; [reflexivity |].
  rewrite lookup_insert_ne.
  - apply IH. intros Hs. apply H. now apply suffix_cons_r.
  - intros <-. apply H. reflexivity.
Qed.

Lemma make_dirs_root p fs : fs !! [] = None -> make_dirs p fs !! [] = None.
Proof.
  intros H. induction p as [| c above IH]; simpl; [exact H |].
  now rewrite lookup_insert_ne.
Qed.

(** Making directories that are there already changes nothing. *)
Lemma make_dirs_existing p fs :
  node_at fs p = Some Directory -> well_formed fs -> make_dirs p fs = fs.
Proof.
  intros H Hwf. induction p as [| c above IH]; simpl; [reflexivity |].
  simpl in H. rewrite IH.
  - now apply insert_id.
  - destruct Hwf as [_ Hwf]. now apply (Hwf c above Directory).
Qed.

Lemma make_dirs_lookup_cases p fs q :
  make_dirs p fs !! q = Some Directory \/ make_dirs p fs !! q = fs !! q.
Proof.
  induction p as [| c above IH]; simpl; [now right |].
  destruct (decide (q = c :: above)) as [-> | Hne].
  - left. apply lookup_insert_eq.
  - rewrite lookup_insert_ne by congruence. exact IH.
Qed.

Lemma make_dirs_well_formed p fs :
  well_formed fs -> no_file_on_the_way fs p -> well_formed (make_dirs p fs).
Proof.
  intros Hwf Hno. split; [apply make_dirs_root, Hwf |].
  intros c above n H.
  destruct above as [| c' above']; [reflexivity |]. simpl.
  destruct (decide (on_the_way (c :: c' :: above') p)) as [Hs | Hs].
  - apply make_dirs_on_the_way; [discriminate |].
    now apply suffix_cons_l in Hs.
  - rewrite make_dirs_elsewhere in H by exact Hs.
    destruct Hwf as [_ Hwf]. pose proof (Hwf c (c' :: above') n H) as Hd.
    simpl in Hd.
    destruct (make_dirs_lookup_cases p fs (c' :: above')) as [E | E];
      [exact E | now rewrite E].
Qed.

Lemma make_dirs_keeps_files p fs q content :
  make_dirs p fs !! q = Some (File content) -> fs !! q = Some (File content).
Proof.
  destruct (make_dirs_lookup_cases p fs q) as [E | E]; rewrite E;
    [discriminate | auto].
Qed.

Lemma file_on_the_way_or_not fs p :
  no_file_on_the_way fs p \/
  exists q content, on_the_way q p /\ fs !! q = Some (File content).
Proof.
  induction p as [| c above IH].
  - destruct (fs !! ([] : path)) as [[| content] |] eqn:E.
    + left. intros q content Hq. apply suffix_nil_inv in Hq. subst q.
      now rewrite E.
    + right. exists [], content. split; [reflexivity | exact E].
    + left. intros q content Hq. apply suffix_nil_inv in Hq. subst q.
      now rewrite E.
  - destruct IH as [Hno | (q & content & Hq & Hf)].
    + destruct (fs !! (c :: above)) as [[| content] |] eqn:E.
      * left. intros q content Hq.
        apply on_the_way_cons_inv in Hq. destruct Hq as [-> | Hq];
          [now rewrite E | now apply Hno].
      * right. exists (c :: above), content. split; [reflexivity | exact E].
      * left. intros q content Hq.
        apply on_the_way_cons_inv in Hq. destruct Hq as [-> | Hq];
          [now rewrite E | now apply Hno].
    + right. exists q, content. split; [now apply suffix_cons_r | exact Hf].
Qed.

(** The walk to a path that has a regular file on the way stops at the
    file. *)
Lemma resolve_through_file fs p q content :
  well_formed fs -> on_the_way q p -> fs !! q = Some (File content) ->
  resolve fs p = Some NotADirectoryError.
Proof.
  intros Hwf Hq Hf. induction p as [| c above IH]; simpl.
  - apply suffix_nil_inv in Hq. subst q. destruct Hwf as [H0 _]. congruence.
  - apply on_the_way_cons_inv in Hq. destruct Hq as [-> | Hq].
    + pose proof (stored_parent_resolves fs (c :: above) _ Hwf Hf) as R.
      simpl in R. now rewrite R, Hf.
    + now rewrite (IH Hq).
Qed.

Lemma mkdir_parents_makes_the_way fs p :
  well_formed fs -> no_file_on_the_way fs p ->
  mkdir_parents p fs = (None, make_dirs p fs).
Proof.
  intros Hwf. induction p as [| c above IH]; intros Hno; [reflexivity |].
  assert (Hno' : no_file_on_the_way fs above).
  { intros q content Hq. apply Hno. now apply suffix_cons_r. }
  simpl. destruct (resolve fs above) as [e |] eqn:R.
  - destruct (resolve_errors fs above e R) as [-> | ->].
    + rewrite (IH Hno'). unfold mkdir_exist_ok. simpl.
      assert (Habove : above <> []) by (intros ->; discriminate R).
      assert (Hd : node_at (make_dirs above fs) above = Some Directory).
      { destruct above as [| c' above']; [contradiction |]. simpl.
        apply lookup_insert_eq. }
      rewrite (directory_resolves _ _ (make_dirs_well_formed _ _ Hwf Hno') Hd).
      rewrite make_dirs_elsewhere by apply suffix_cons_not.
      pose proof (resolve_missing fs above Hwf R) as Hm.
      destruct (fs !! (c :: above)) as [n |] eqn:E; [| reflexivity].
      destruct Hwf as [_ Hwf']. rewrite (Hwf' c above n E) in Hm.
      discriminate.
    + destruct (resolve_not_a_directory fs above R) as (q & content & Hq & Hf).
      exfalso. now apply (Hno' q content).
  - pose proof (resolve_None_is_directory fs above R) as Hd.
    rewrite (make_dirs_existing above fs Hd Hwf).
    destruct (fs !! (c :: above)) as [[| content] |] eqn:E.
    + unfold is_dir. simpl. rewrite R, E. now rewrite insert_id.
    + exfalso. now apply (Hno (c :: above) content).
    + reflexivity.
Qed.

Lemma mkdir_parents_blocked fs p q content :
  well_formed fs -> on_the_way q p -> fs !! q = Some (File content) ->
  mkdir_parents p fs
  = (Some (if decide (q = p) then FileExistsError else NotADirectoryError),
     fs).
Proof.
  intros Hwf Hq Hf. destruct p as [| c above].
  - apply suffix_nil_inv in Hq. subst q. destruct Hwf as [H0 _]. congruence.
  - simpl. unfold is_dir. simpl.
    apply on_the_way_cons_inv in Hq. destruct Hq as [-> | Hq].
    + pose proof (stored_parent_resolves fs (c :: above) _ Hwf Hf) as R.
      simpl in R. rewrite R, Hf. simpl. rewrite R, Hf.
      now rewrite decide_True.
    + rewrite (resolve_through_file fs above q content Hwf Hq Hf). simpl.
      rewrite ?(resolve_through_file fs above q content Hwf Hq Hf). simpl.
      rewrite decide_False; [reflexivity |].
      intros ->. now apply (suffix_cons_not c above).
Qed.

Lemma directory_has_no_file_on_the_way fs p :
  well_formed fs -> node_at fs p = Some Directory ->
  no_file_on_the_way fs p.
Proof.
  intros Hwf Hd q content Hq Hf.
  pose proof (resolve_through_file fs p q content Hwf Hq Hf) as R.
  rewrite (directory_resolves fs p Hwf Hd) in R. discriminate.
Qed.

(** ** [create_file] *)

(** What [create_file] does when nothing is in its way. *)
Lemma create_file_eq filepath content d :
  well_formed (files d) ->
  no_file_on_the_way (files d) (parent (parse_path filepath)) ->
  node_at (files d) (parse_path filepath) <> Some Directory ->
  create_file filepath content d
  = (None,
     Disk (<[parse_path filepath := File content]>
             (make_dirs (parent (parse_path filepath)) (files d)))
          (stdout d ++ [CreatedFile filepath])).
Proof.
  intros Hwf Hno Hnd. unfold create_file.
  rewrite (mkdir_parents_makes_the_way _ _ Hwf Hno).
  set (p := parse_path filepath) in *.
  set (fs1 := make_dirs (parent p) (files d)).
  assert (Hwf1 : well_formed fs1) by now apply make_dirs_well_formed.
  assert (Hp : p <> []) by (intros E; rewrite E in Hnd; now apply Hnd).
  destruct p as [| c above] eqn:Ep; [contradiction |]. simpl in *.
  assert (Hd : node_at fs1 above = Some Directory).
  { destruct above as [| c' above']; [reflexivity |]. simpl.
    apply lookup_insert_eq. }
  unfold write_file. simpl.
  rewrite (directory_resolves fs1 above Hwf1 Hd).
  assert (E : fs1 !! (c :: above) = files d !! (c :: above))
    by (apply make_dirs_elsewhere, suffix_cons_not).
  rewrite E.
  destruct (files d !! (c :: above)) as [[| old] |]; try reflexivity.
  now contradiction Hnd.
Qed.

Lemma insert_file_well_formed fs p content :
  well_formed fs -> p <> [] ->
  node_at fs (parent p) = Some Directory ->
  fs !! p <> Some Directory ->
  well_formed (<[p := File content]> fs).
Proof.
  intros [H0 Hwf] Hp Hparent Hnd. split.
  - now rewrite lookup_insert_ne.
  - intros c above n H.
    assert (Habove : above <> p).
    { intros ->. destruct (decide (c :: p = p)) as [E | Hne].
      - now apply (f_equal length) in E; simpl in E; lia.
      - rewrite lookup_insert_ne in H by congruence.
        pose proof (Hwf c p n H) as Hd. destruct p; [contradiction |].
        simpl in Hd. contradiction. }
    assert (Hd : node_at fs above = Some Directory).
    { destruct (decide (c :: above = p)) as [<- | Hne].
      - exact Hparent.
      - rewrite lookup_insert_ne in H by congruence. now apply (Hwf c above n). }
    destruct above as [| c' above']; [reflexivity |]. simpl in *.
    now rewrite lookup_insert_ne by congruence.
Qed.



(** What a failing [create_file] leaves behind, and why it fails. *)
Lemma create_file_failure filepath content d e d1 :
  well_formed (files d) ->
  create_file filepath content d = (Some e, d1) ->
  d1 = d /\
  ((e = IsADirectoryError /\
    node_at (files d) (parse_path filepath) = Some Directory) \/
   (exists q old,
      on_the_way q (parent (parse_path filepath)) /\
      files d !! q = Some (File old) /\
      e = if decide (q = parent (parse_path filepath))
          then FileExistsError else NotADirectoryError)).
Proof.
  intros Hwf H. destruct d as [fs out]. simpl in *.
  set (p := parse_path filepath) in *.
  destruct (file_on_the_way_or_not fs (parent p))
    as [Hno | (q & old & Hq & Hf)].
  - assert (Hcases :
      node_at fs p = Some Directory \/ node_at fs p <> Some Directory).
    { destruct (node_at fs p) as [[| old] |]; [now left | now right ..]. }
    destruct Hcases as [Hd | Hnd].
    + unfold create_file in H. simpl in H. fold p in H.
      rewrite (mkdir_parents_makes_the_way _ _ Hwf Hno) in H.
      assert (Hsame : make_dirs (parent p) fs = fs).
      { apply make_dirs_existing; [| exact Hwf].
        destruct p as [| c above]; [reflexivity |]. simpl in *.
        destruct Hwf as [_ Hwf]. now apply (Hwf c above Directory). }
      rewrite Hsame in H. unfold write_file in H.
      rewrite (stored_parent_resolves fs p Directory Hwf Hd), Hd in H.
      injection H as <- <-. split; [reflexivity |]. now left.
    + pose proof (create_file_eq filepath content (Disk fs out) Hwf Hno Hnd)
        as E.
      rewrite E in H. discriminate.
  - unfold create_file in H. simpl in H. fold p in H.
    rewrite (mkdir_parents_blocked fs (parent p) q old Hwf Hq Hf) in H.
    injection H as <- <-. split; [reflexivity |]. right. now exists q, old.
Qed.

(** X14: for a portable [filepath] (as in X13), when [create_file]
    raises, the disk is as it was and nothing has been printed; and the
    cause is that [filepath] is a directory ([IsADirectoryError]), that
    the directory it should go into is a regular file
    ([FileExistsError]), or that a directory further up is a regular file
    ([NotADirectoryError]). *)
Theorem create_file_failure_changes_nothing filepath content d e d1 :
  well_formed (files d) ->
  portable filepath = true ->
  create_file filepath content d = (Some e, d1) ->
  d1 = d /\
  ((e = IsADirectoryError /\
    node_at (files d) (parse_path filepath) = Some Directory) \/
   (exists q old,
      on_the_way q (parent (parse_path filepath)) /\
      files d !! q = Some (File old) /\
      e = if decide (q = parent (parse_path filepath))
          then FileExistsError else NotADirectoryError)).
Proof. intros Hwf _. now apply create_file_failure. Qed.

(** [create_file] on a path that holds a regular file. *)
Lemma create_file_over_file filepath content d old :
  well_formed (files d) ->
  files d !! parse_path filepath = Some (File old) ->
  create_file filepath content d
  = (None,
     Disk (<[parse_path filepath := File content]> (files d))
          (stdout d ++ [CreatedFile filepath])).
Proof.
  intros Hwf Hf.
  set (p := parse_path filepath) in *.
  assert (Hp : p <> []).
  { intros E. rewrite E in Hf. destruct Hwf as [H0 _]. congruence. }
  assert (Hd : node_at (files d) (parent p) = Some Directory).
  { destruct p as [| c above]; [contradiction |]. simpl.
    destruct Hwf as [_ Hwf]. now apply (Hwf c above (File old)). }
  assert (Hnd : node_at (files d) p <> Some Directory).
  { destruct p; [contradiction |]. simpl. congruence. }
  pose proof (directory_has_no_file_on_the_way _ _ Hwf Hd) as Hno.
  rewrite (create_file_eq filepath content d Hwf Hno Hnd). fold p.
  now rewrite (make_dirs_existing (parent p) (files d) Hd Hwf).
Qed.


(** ** [create_directory_structure] *)

Lemma grown_refl fs : grown fs fs.
Proof. intros q. now left. Qed.

Lemma grown_trans fs fs1 fs2 : grown fs fs1 -> grown fs1 fs2 -> grown fs fs2.
Proof.
  intros H1 H2 q. destruct (H1 q) as [E1 | [E1 D1]], (H2 q) as [E2 | [E2 D2]].
  - left. congruence.
  - right. split; congruence.
  - right. split; congruence.
  - congruence.
Qed.

Lemma make_dirs_grown p fs :
  no_file_on_the_way fs p -> well_formed fs -> grown fs (make_dirs p fs).
Proof.
  intros Hno [H0 _] q.
  destruct (decide (on_the_way q p)) as [Hq | Hq].
  - destruct q as [| c q'].
    + left. rewrite make_dirs_root by exact H0. now rewrite H0.
    + rewrite (make_dirs_on_the_way p fs (c :: q')) by (discriminate || exact Hq).
      destruct (fs !! (c :: q')) as [[| content] |] eqn:E.
      * now left.
      * exfalso. now apply (Hno (c :: q') content).
      * now right.
  - left. now apply make_dirs_elsewhere.
Qed.

Lemma no_file_after_make_dirs fs p p1 :
  no_file_on_the_way fs p -> no_file_on_the_way (make_dirs p1 fs) p.
Proof.
  intros Hno q content Hq Hf. apply (Hno q content Hq).
  now apply (make_dirs_keeps_files p1).
Qed.

Lemma no_file_before_make_dirs fs p p1 :
  no_file_on_the_way fs p1 -> no_file_on_the_way (make_dirs p1 fs) p ->
  no_file_on_the_way fs p.
Proof.
  intros Hno1 Hno q content Hq Hf.
  destruct (decide (on_the_way q p1)) as [Hq1 | Hq1].
  - now apply (Hno1 q content).
  - apply (Hno q content Hq). now rewrite make_dirs_elsewhere.
Qed.

(** A run of the loop that meets no regular file. *)
Lemma create_directories_makes_all ds fs out :
  well_formed fs ->
  Forall (fun directory => no_file_on_the_way fs (parse_path directory)) ds ->
  create_directories ds (Disk fs out)
  = (None, Disk (make_all_dirs ds fs) (out ++ map CreatedDirectory ds)) /\
  well_formed (make_all_dirs ds fs) /\
  grown fs (make_all_dirs ds fs).
Proof.
  revert fs out. induction ds as [| s ds IH]; intros fs out Hwf Hall.
  - simpl. rewrite app_nil_r. repeat split; [apply Hwf .. | apply grown_refl].
  - apply Forall_cons in Hall. destruct Hall as [Hs Hall]. simpl.
    rewrite (mkdir_parents_makes_the_way _ _ Hwf Hs).
    assert (Hwf1 : well_formed (make_dirs (parse_path s) fs))
      by now apply make_dirs_well_formed.
    assert (Hall1 :
      Forall (fun directory =>
                no_file_on_the_way (make_dirs (parse_path s) fs)
                                   (parse_path directory)) ds).
    { eapply Forall_impl; [exact Hall |]. intros s' H'.
      now apply no_file_after_make_dirs. }
    destruct (IH _ (out ++ [CreatedDirectory s]) Hwf1 Hall1)
      as (E & Hwf2 & Hg).
    rewrite E, <- app_assoc. repeat split; try apply Hwf2.
    eapply grown_trans; [| exact Hg]. now apply make_dirs_grown.
Qed.

(** The loop, whatever it meets: it succeeds exactly when no regular file
    is in the way, and it only ever adds directories. *)
Lemma create_directories_outcome ds fs out :
  well_formed fs ->
  (fst (create_directories ds (Disk fs out)) = None <->
   Forall (fun directory => no_file_on_the_way fs (parse_path directory)) ds) /\
  well_formed (files (snd (create_directories ds (Disk fs out)))) /\
  grown fs (files (snd (create_directories ds (Disk fs out)))).
Proof.
  revert fs out. induction ds as [| s ds IH]; intros fs out Hwf.
  - simpl. repeat split; try apply Hwf; [constructor | apply grown_refl].
  - simpl.
    destruct (file_on_the_way_or_not fs (parse_path s))
      as [Hs | (q & old & Hq & Hf)].
    + rewrite (mkdir_parents_makes_the_way _ _ Hwf Hs).
      assert (Hwf1 : well_formed (make_dirs (parse_path s) fs))
        by now apply make_dirs_well_formed.
      destruct (IH _ (out ++ [CreatedDirectory s]) Hwf1) as (Hiff & Hwf2 & Hg).
      split; [| split; [exact Hwf2 |]].
      * rewrite Hiff. split.
        -- intros Hall. constructor; [exact Hs |].
           eapply Forall_impl; [exact Hall |]. intros s' H'.
           now apply (no_file_before_make_dirs fs _ (parse_path s)).
        -- intros Hall. apply Forall_cons in Hall. destruct Hall as [_ Hall].
           eapply Forall_impl; [exact Hall |]. intros s' H'.
           now apply no_file_after_make_dirs.
      * eapply grown_trans; [| exact Hg]. now apply make_dirs_grown.
    + rewrite (mkdir_parents_blocked fs _ q old Hwf Hq Hf). simpl.
      split; [| split; [exact Hwf | apply grown_refl]].
      split; [discriminate |].
      intros Hall. apply Forall_cons in Hall. destruct Hall as [Hs _].
      exfalso. now apply (Hs q old).
Qed.

Lemma make_all_dirs_listed ds fs s q :
  well_formed fs ->
  Forall (fun directory => no_file_on_the_way fs (parse_path directory)) ds ->
  s ∈ ds -> on_the_way q (parse_path s) ->
  node_at (make_all_dirs ds fs) q = Some Directory.
Proof.
  revert fs. induction ds as [| s0 ds IH]; intros fs Hwf Hall Hin Hq.
  - now apply elem_of_nil in Hin.
  - apply Forall_cons in Hall. destruct Hall as [Hs0 Hall].
    assert (Hwf1 : well_formed (make_dirs (parse_path s0) fs))
      by now apply make_dirs_well_formed.
    assert (Hall1 :
      Forall (fun directory =>
                no_file_on_the_way (make_dirs (parse_path s0) fs)
                                   (parse_path directory)) ds).
    { eapply Forall_impl; [exact Hall |]. intros s' H'.
      now apply no_file_after_make_dirs. }
    apply elem_of_cons in Hin. destruct Hin as [-> | Hin].
    + destruct q as [| c q']; [reflexivity |].
      change (make_all_dirs (s0 :: ds) fs)
        with (make_all_dirs ds (make_dirs (parse_path s0) fs)).
      unfold node_at.
      destruct (create_directories_makes_all ds _ [] Hwf1 Hall1)
        as (_ & _ & Hg).
      destruct (Hg (c :: q')) as [E | [E _]].
      * rewrite E.
        apply make_dirs_on_the_way; [discriminate | exact Hq].
      * rewrite make_dirs_on_the_way in E by (discriminate || exact Hq).
        discriminate.
    + now apply (IH _ Hwf1 Hall1).
Qed.

Lemma make_all_dirs_existing ds fs :
  well_formed fs ->
  Forall (fun directory => node_at fs (parse_path directory) = Some Directory)
         ds ->
  make_all_dirs ds fs = fs.
Proof.
  intros Hwf. induction ds as [| s ds IH]; intros Hall; [reflexivity |].
  apply Forall_cons in Hall. destruct Hall as [Hs Hall].
  change (make_all_dirs (s :: ds) fs)
    with (make_all_dirs ds (make_dirs (parse_path s) fs)).
  rewrite (make_dirs_existing _ _ Hs Hwf). now apply IH.
Qed.

(** When [create_directory_structure] succeeds, and what it has made. *)
Lemma create_directory_structure_succeeds_iff_aux d :
  well_formed (files d) ->
  (fst (create_directory_structure d) = None <->
   forall directory,
     directory ∈ directories ->
     no_file_on_the_way (files d) (parse_path directory)) /\
  (fst (create_directory_structure d) = None ->
   (forall directory q,
      directory ∈ directories -> on_the_way q (parse_path directory) ->
      node_at (files (snd (create_directory_structure d))) q
      = Some Directory) /\
   stdout (snd (create_directory_structure d))
   = stdout d ++ map CreatedDirectory directories).
Proof.
  intros Hwf. destruct d as [fs out]. simpl in Hwf.
  unfold create_directory_structure.
  destruct (create_directories_outcome directories fs out Hwf) as (Hiff & _).
  split.
  - rewrite Hiff. apply Forall_forall.
  - intros Hok. apply Hiff in Hok.
    destruct (create_directories_makes_all directories fs out Hwf Hok)
      as (E & _). rewrite E. cbn [fst snd files stdout].
    split; [| reflexivity].
    intros s q Hs Hq. now apply (make_all_dirs_listed directories fs s q).
Qed.

(** X16: [create_directory_structure] succeeds exactly when no regular
    file stands where one of the listed directories, or a directory above
    one, should be; and then every listed directory and every directory
    above one exists, and one line per listed directory has been printed,
    in the order of the list. *)
Theorem create_directory_structure_succeeds_iff d :
  well_formed (files d) ->
  (fst (create_directory_structure d) = None <->
   forall directory,
     directory ∈ directories ->
     no_file_on_the_way (files d) (parse_path directory)) /\
  (fst (create_directory_structure d) = None ->
   (forall directory q,
      directory ∈ directories -> on_the_way q (parse_path directory) ->
      node_at (files (snd (create_directory_structure d))) q
      = Some Directory) /\
   stdout (snd (create_directory_structure d))
   = stdout d ++ map CreatedDirectory directories).
Proof. apply create_directory_structure_succeeds_iff_aux. Qed.

(** What [create_directory_structure] leaves alone. *)
Lemma create_directory_structure_only_adds_directories_aux d :
  well_formed (files d) ->
  grown (files d) (files (snd (create_directory_structure d))) /\
  (forall q content,
     files (snd (create_directory_structure d)) !! q = Some (File content) <->
     files d !! q = Some (File content)) /\
  well_formed (files (snd (create_directory_structure d))).
Proof.
  intros Hwf. destruct d as [fs out]. simpl in Hwf.
  unfold create_directory_structure.
  destruct (create_directories_outcome directories fs out Hwf)
    as (_ & Hwf1 & Hg).
  split; [exact Hg |]. split; [| exact Hwf1].
  intros q content. cbn [files] in *. destruct (Hg q) as [E | [E1 E2]].
  - now rewrite E.
  - rewrite E1, E2. split; discriminate.
Qed.

(** X17: whatever its outcome, [create_directory_structure] removes
    nothing and changes nothing that exists: each path holds what it held
    or, if it held nothing, possibly a new directory; the regular files are
    the same with the same contents, and the file system is still a
    tree. *)
Theorem create_directory_structure_only_adds_directories d :
  well_formed (files d) ->
  grown (files d) (files (snd (create_directory_structure d))) /\
  (forall q content,
     files (snd (create_directory_structure d)) !! q = Some (File content) <->
     files d !! q = Some (File content)) /\
  well_formed (files (snd (create_directory_structure d))).
Proof. apply create_directory_structure_only_adds_directories_aux. Qed.

(** X18: [create_directory_structure] can be run again: after a run
    that succeeded, a second run succeeds too and leaves the file system
    as it is. *)
Theorem create_directory_structure_is_idempotent d d1 :
  well_formed (files d) ->
  create_directory_structure d = (None, d1) ->
  create_directory_structure d1
  = (None, Disk (files d1) (stdout d1 ++ map CreatedDirectory directories)).
Proof.
  intros Hwf H. destruct d as [fs out]. simpl in Hwf.
  unfold create_directory_structure in *.
  destruct (create_directories_outcome directories fs out Hwf) as (Hiff & _).
  assert (Hok : Forall (fun directory =>
                          no_file_on_the_way fs (parse_path directory))
                       directories).
  { apply Hiff. now rewrite H. }
  destruct (create_directories_makes_all directories fs out Hwf Hok)
    as (E & Hwf1 & _).
  rewrite E in H. apply (f_equal snd) in H. cbn [snd] in H. subst d1.
  assert (Hdirs :
    Forall (fun directory =>
              node_at (make_all_dirs directories fs) (parse_path directory)
              = Some Directory) directories).
  { apply Forall_forall. intros s Hs.
    now apply (make_all_dirs_listed directories fs s). }
  assert (Hok1 :
    Forall (fun directory =>
              no_file_on_the_way (make_all_dirs directories fs)
                                 (parse_path directory)) directories).
  { eapply Forall_impl; [exact Hdirs |]. intros s Hs.
    now apply directory_has_no_file_on_the_way. }
  destruct (create_directories_makes_all directories _
              (out ++ map CreatedDirectory directories) Hwf1 Hok1)
    as (E1 & _).
  cbn [files stdout]. rewrite E1.
  now rewrite (make_all_dirs_existing directories _ Hwf1 Hdirs).
Qed.

(** ** [generate_all_files] and the script *)


(** [create_file] into a directory that exists. *)
Lemma create_file_in_directory filepath content fs out :
  well_formed fs ->
  node_at fs (parent (parse_path filepath)) = Some Directory ->
  create_file filepath content (Disk fs out)
  = match node_at fs (parse_path filepath) with
    | Some Directory => (Some IsADirectoryError, Disk fs out)
    | _ =>
        (None,
         Disk (<[parse_path filepath := File content]> fs)
              (out ++ [CreatedFile filepath]))
    end.
Proof.
  intros Hwf Hd.
  pose proof (directory_has_no_file_on_the_way _ _ Hwf Hd) as Hno.
  destruct (node_at fs (parse_path filepath)) as [[| old] |] eqn:E.
  - unfold create_file. cbn [files stdout].
    rewrite (mkdir_parents_makes_the_way _ _ Hwf Hno).
    rewrite (make_dirs_existing _ _ Hd Hwf). unfold write_file.
    now rewrite (directory_resolves _ _ Hwf Hd), E.
  - rewrite (create_file_eq filepath content (Disk fs out) Hwf Hno)
      by (cbn [files]; congruence).
    cbn [files stdout]. now rewrite (make_dirs_existing _ _ Hd Hwf).
  - rewrite (create_file_eq filepath content (Disk fs out) Hwf Hno)
      by (cbn [files]; congruence).
    cbn [files stdout]. now rewrite (make_dirs_existing _ _ Hd Hwf).
Qed.

Lemma insert_file_same_directories fs p content :
  fs !! p <> Some Directory ->
  same_directories fs (<[p := File content]> fs).
Proof.
  intros Hnd q. destruct (decide (p = q)) as [<- | Hne].
  - rewrite lookup_insert_eq. split; [discriminate | contradiction].
  - now rewrite lookup_insert_ne.
Qed.

Lemma same_directories_node_at fs fs1 q :
  same_directories fs fs1 ->
  node_at fs1 q = Some Directory <-> node_at fs q = Some Directory.
Proof. intros H. destruct q; [reflexivity | apply H]. Qed.

(** A sequence of [create_file] into directories that exist. *)
Lemma create_files_in_directories l fs out :
  well_formed fs ->
  Forall (fun item =>
            node_at fs (parent (parse_path item.1)) = Some Directory) l ->
  well_formed (files (snd (create_files l (Disk fs out)))) /\
  same_directories fs (files (snd (create_files l (Disk fs out)))) /\
  (fst (create_files l (Disk fs out)) = None <->
   Forall (fun item => node_at fs (parse_path item.1) <> Some Directory) l) /\
  (forall q, Forall (fun item => q <> parse_path item.1) l ->
             files (snd (create_files l (Disk fs out))) !! q = fs !! q) /\
  (fst (create_files l (Disk fs out)) = None ->
   NoDup (map (fun item => parse_path item.1) l) ->
   Forall (fun item =>
             files (snd (create_files l (Disk fs out))) !! parse_path item.1
             = Some (File item.2)) l).
Proof.
  revert fs out. induction l as [| [f c] l IH]; intros fs out Hwf Hall.
  - cbn. repeat split; auto; try apply Hwf; constructor.
  - apply Forall_cons in Hall. destruct Hall as [Hd Hall]. cbn [fst snd] in Hd.
    cbn [create_files].
    rewrite (create_file_in_directory f c fs out Hwf Hd).
    destruct (node_at fs (parse_path f)) as [[| old] |] eqn:E.
    + cbn [fst snd files]. split; [exact Hwf |]. split; [now intros q |].
      split; [| split; [reflexivity | discriminate]].
      split; [discriminate |]. intros H. apply Forall_cons in H.
      destruct H as [H _]. now contradiction H.
    + assert (Hp : parse_path f <> []) by (intros Ep; rewrite Ep in E; discriminate).
      assert (Hnd : fs !! parse_path f <> Some Directory).
      { destruct (parse_path f); [contradiction | simpl in E; congruence]. }
      pose proof (insert_file_same_directories fs _ c Hnd) as Hsame.
      assert (Hwf1 : well_formed (<[parse_path f := File c]> fs))
        by now apply insert_file_well_formed.
      assert (Hall1 :
        Forall (fun item =>
                  node_at (<[parse_path f := File c]> fs)
                          (parent (parse_path item.1)) = Some Directory) l).
      { eapply Forall_impl; [exact Hall |]. intros item H.
        now apply (same_directories_node_at _ _ _ Hsame). }
      destruct (IH _ (out ++ [CreatedFile f]) Hwf1 Hall1)
        as (Hwf2 & Hs2 & Hiff & Hframe & Hfiles).
      split; [exact Hwf2 |].
      split.
      { intros q. rewrite (Hs2 q). apply Hsame. }
      split.
      { rewrite Hiff. split.
        - intros H. constructor; [cbn [fst]; congruence |].
          eapply Forall_impl; [exact H |]. intros item Hi Hd'. apply Hi.
          now apply (same_directories_node_at _ _ _ Hsame).
        - intros H. apply Forall_cons in H. destruct H as [_ H].
          eapply Forall_impl; [exact H |]. intros item Hi Hd'. apply Hi.
          now apply (same_directories_node_at _ _ _ Hsame). }
      split.
      { intros q H. apply Forall_cons in H. destruct H as [Hq H].
        cbn [fst] in Hq. rewrite (Hframe q H).
        now rewrite lookup_insert_ne by congruence. }
      intros Hok Hnodup. cbn [map fst] in Hnodup.
      apply NoDup_cons in Hnodup. destruct Hnodup as [Hnotin Hnodup].
      constructor; [| now apply Hfiles].
      cbn [fst snd]. rewrite Hframe; [apply lookup_insert_eq |].
      apply Forall_forall. intros item Hitem Heq. apply Hnotin.
      rewrite Heq. apply list_elem_of_fmap. now exists item.
    + assert (Hp : parse_path f <> []) by (intros Ep; rewrite Ep in E; discriminate).
      assert (Hnd : fs !! parse_path f <> Some Directory).
      { destruct (parse_path f); [contradiction | simpl in E; congruence]. }
      pose proof (insert_file_same_directories fs _ c Hnd) as Hsame.
      assert (Hwf1 : well_formed (<[parse_path f := File c]> fs))
        by now apply insert_file_well_formed.
      assert (Hall1 :
        Forall (fun item =>
                  node_at (<[parse_path f := File c]> fs)
                          (parent (parse_path item.1)) = Some Directory) l).
      { eapply Forall_impl; [exact Hall |]. intros item H.
        now apply (same_directories_node_at _ _ _ Hsame). }
      destruct (IH _ (out ++ [CreatedFile f]) Hwf1 Hall1)
        as (Hwf2 & Hs2 & Hiff & Hframe & Hfiles).
      split; [exact Hwf2 |].
      split.
      { intros q. rewrite (Hs2 q). apply Hsame. }
      split.
      { rewrite Hiff. split.
        - intros H. constructor; [cbn [fst]; congruence |].
          eapply Forall_impl; [exact H |]. intros item Hi Hd'. apply Hi.
          now apply (same_directories_node_at _ _ _ Hsame).
        - intros H. apply Forall_cons in H. destruct H as [_ H].
          eapply Forall_impl; [exact H |]. intros item Hi Hd'. apply Hi.
          now apply (same_directories_node_at _ _ _ Hsame). }
      split.
      { intros q H. apply Forall_cons in H. destruct H as [Hq H].
        cbn [fst] in Hq. rewrite (Hframe q H).
        now rewrite lookup_insert_ne by congruence. }
      intros Hok Hnodup. cbn [map fst] in Hnodup.
      apply NoDup_cons in Hnodup. destruct Hnodup as [Hnotin Hnodup].
      constructor; [| now apply Hfiles].
      cbn [fst snd]. rewrite Hframe; [apply lookup_insert_eq |].
      apply Forall_forall. intros item Hitem Heq. apply Hnotin.
      rewrite Heq. apply list_elem_of_fmap. now exists item.
Qed.

(** Three facts about the two lists of the script, by evaluation: every
    generated file goes into the current directory or into a listed
    directory or one above a listed one; no generated file has the path of
    such a directory; and no path is generated twice. *)
Lemma generated_files_go_into_listed_directories :
  Forall (fun filepath =>
            Exists (fun directory =>
                      on_the_way (parent (parse_path filepath))
                                 (parse_path directory))
                   directories \/
            parent (parse_path filepath) = [])
         generated_paths.
Proof.
  unfold on_the_way. refine (bool_decide_unpack _ _). vm_compute. exact I.
Qed.

Lemma generated_files_are_off_the_directories :
  Forall (fun filepath =>
            Forall (fun directory =>
                      ~ on_the_way (parse_path filepath) (parse_path directory))
                   directories)
         generated_paths.
Proof.
  unfold on_the_way. refine (bool_decide_unpack _ _). vm_compute. exact I.
Qed.

Lemma generated_paths_are_distinct :
  NoDup (map parse_path generated_paths).
Proof.
  unfold on_the_way. refine (bool_decide_unpack _ _). vm_compute. exact I.
Qed.

Lemma generated_paths_are_names :
  Forall (fun filepath => parse_path filepath <> []) generated_paths.
Proof.
  unfold on_the_way. refine (bool_decide_unpack _ _). vm_compute. exact I.
Qed.

Lemma mkdir_parents_frame p fs q :
  well_formed fs -> ~ on_the_way q p ->
  (mkdir_parents p fs).2 !! q = fs !! q /\ well_formed (mkdir_parents p fs).2.
Proof.
  intros Hwf Hq.
  destruct (file_on_the_way_or_not fs p) as [Hno | (q1 & old & Hq1 & Hf)].
  - rewrite (mkdir_parents_makes_the_way _ _ Hwf Hno). cbn [snd].
    split; [now apply make_dirs_elsewhere | now apply make_dirs_well_formed].
  - rewrite (mkdir_parents_blocked _ _ q1 old Hwf Hq1 Hf). now split.
Qed.

Lemma create_directories_frame ds fs out q :
  well_formed fs ->
  Forall (fun directory => ~ on_the_way q (parse_path directory)) ds ->
  files (create_directories ds (Disk fs out)).2 !! q = fs !! q.
Proof.
  revert fs out. induction ds as [| s ds IH]; intros fs out Hwf Hall;
    [reflexivity |].
  apply Forall_cons in Hall. destruct Hall as [Hs Hall].
  destruct (mkdir_parents_frame (parse_path s) fs q Hwf Hs) as [E Hwf1].
  cbn [create_directories files stdout].
  destruct (mkdir_parents (parse_path s) fs) as [[e |] fs1]; cbn [snd] in *.
  - exact E.
  - rewrite (IH fs1 _ Hwf1 Hall). exact E.
Qed.


Lemma create_files_over_same l fs out :
  well_formed fs ->
  Forall (fun item => fs !! parse_path item.1 = Some (File item.2)) l ->
  create_files l (Disk fs out)
  = (None, Disk fs (out ++ map (fun item => CreatedFile item.1) l)).
Proof.
  intros Hwf. revert out. induction l as [| [f c] l IH]; intros out Hall.
  - cbn. now rewrite app_nil_r.
  - apply Forall_cons in Hall. destruct Hall as [Hf Hall]. cbn [fst snd] in Hf.
    cbn [create_files].
    rewrite (create_file_over_file f c (Disk fs out) c Hwf Hf).
    cbn [files stdout]. rewrite (insert_id _ _ _ Hf).
    rewrite (IH _ Hall). cbn [map fst]. now rewrite <- app_assoc.
Qed.

(** Where the listed directories exist, the generated files go into
    directories that exist. *)
Lemma generated_files_have_their_directories text fs :
  (forall directory q,
     directory ∈ directories -> on_the_way q (parse_path directory) ->
     node_at fs q = Some Directory) ->
  Forall (fun item =>
            node_at fs (parent (parse_path item.1)) = Some Directory)
         (generated_files text).
Proof.
  intros Hdirs. unfold generated_files. apply List.Forall_map. cbn [fst].
  eapply Forall_impl; [apply generated_files_go_into_listed_directories |].
  intros f [Hex | ->]; [| reflexivity].
  apply Exists_exists in Hex. destruct Hex as (s & Hs & Hq).
  now apply (Hdirs s).
Qed.

Lemma generated_files_paths text :
  map (fun item : string * string => parse_path item.1) (generated_files text)
  = map parse_path generated_paths.
Proof. unfold generated_files. now rewrite List.map_map. Qed.

Lemma generate_all_files_fst text d :
  (generate_all_files text d).1 = (create_files (generated_files text) d).1.
Proof.
  unfold generate_all_files.
  now destruct (create_files (generated_files text) d) as [[e |] d1].
Qed.

Lemma generate_all_files_files text d :
  files (generate_all_files text d).2
  = files (create_files (generated_files text) d).2.
Proof.
  unfold generate_all_files.
  now destruct (create_files (generated_files text) d) as [[e |] d1].
Qed.

(** [generate_all_files] where the listed directories exist. *)
Lemma generate_all_files_in_the_tree text fs out :
  well_formed fs ->
  (forall directory q,
     directory ∈ directories -> on_the_way q (parse_path directory) ->
     node_at fs q = Some Directory) ->
  well_formed (files (generate_all_files text (Disk fs out)).2) /\
  same_directories fs (files (generate_all_files text (Disk fs out)).2) /\
  ((generate_all_files text (Disk fs out)).1 = None <->
   Forall (fun filepath => node_at fs (parse_path filepath) <> Some Directory)
          generated_paths) /\
  ((generate_all_files text (Disk fs out)).1 = None ->
   Forall (fun item =>
             files (generate_all_files text (Disk fs out)).2
               !! parse_path item.1 = Some (File item.2))
          (generated_files text)).
Proof.
  intros Hwf Hdirs.
  pose proof (generated_files_have_their_directories text fs Hdirs) as Hpar.
  destruct (create_files_in_directories (generated_files text) fs out Hwf Hpar)
    as (Hwf1 & Hsame & Hiff & _ & Hfiles).
  rewrite generate_all_files_fst, generate_all_files_files.
  split; [exact Hwf1 |]. split; [exact Hsame |]. split.
  - rewrite Hiff. unfold generated_files. now rewrite List.Forall_map.
  - intros Hok. apply Hfiles; [exact Hok |].
    rewrite generated_files_paths. apply generated_paths_are_distinct.
Qed.



Lemma generate_repo_fst text d :
  (generate_repo text d).1
  = match create_directory_structure
            (Disk (files d) (stdout d ++ [Opening])) with
    | (Some e, _) => Some e
    | (None, d1) =>
        (generate_all_files text (Disk (files d1) (stdout d1 ++ [Blank]))).1
    end.
Proof.
  unfold generate_repo.
  destruct (create_directory_structure _) as [[e |] d1]; [reflexivity |].
  now destruct (generate_all_files text _) as [[e |] d2].
Qed.

Lemma generate_repo_files text d :
  files (generate_repo text d).2
  = match create_directory_structure
            (Disk (files d) (stdout d ++ [Opening])) with
    | (Some e, d1) => files d1
    | (None, d1) =>
        files (generate_all_files text
                 (Disk (files d1) (stdout d1 ++ [Blank]))).2
    end.
Proof.
  unfold generate_repo.
  destruct (create_directory_structure _) as [[e |] d1]; [reflexivity |].
  now destruct (generate_all_files text _) as [[e |] d2].
Qed.

(** What a run of the script that succeeds leaves on the disk. *)
Lemma generate_repo_success text d :
  well_formed (files d) ->
  (generate_repo text d).1 = None ->
  well_formed (files (generate_repo text d).2) /\
  (forall directory q,
     directory ∈ directories -> on_the_way q (parse_path directory) ->
     node_at (files (generate_repo text d).2) q = Some Directory) /\
  Forall (fun item =>
            files (generate_repo text d).2 !! parse_path item.1
            = Some (File item.2))
         (generated_files text).
Proof.
  intros Hwf. rewrite generate_repo_fst, generate_repo_files.
  set (d0 := Disk (files d) (stdout d ++ [Opening])).
  destruct (create_directory_structure_only_adds_directories_aux d0 Hwf)
    as (_ & _ & Hwf1).
  destruct (create_directory_structure_succeeds_iff_aux d0 Hwf) as (_ & Hdirs).
  destruct (create_directory_structure d0) as [[e |] d1];
    [discriminate |]. cbn [fst snd] in *.
  destruct (Hdirs eq_refl) as [Hdirs1 _].
  destruct (generate_all_files_in_the_tree text (files d1)
              (stdout d1 ++ [Blank]) Hwf1 Hdirs1)
    as (Hwf2 & Hsame & _ & Hfiles).
  intros Hok. split; [exact Hwf2 |]. split; [| now apply Hfiles].
  intros s q Hs Hq.
  apply (same_directories_node_at _ _ q Hsame). now apply (Hdirs1 s).
Qed.

(** X21: the script succeeds exactly when no regular file stands where
    a listed directory, or a directory above one, should be, and no
    directory stands where a generated file should be. *)
Theorem generate_repo_succeeds_iff text d :
  well_formed (files d) ->
  (generate_repo text d).1 = None <->
  (forall directory,
     directory ∈ directories ->
     no_file_on_the_way (files d) (parse_path directory)) /\
  Forall (fun filepath =>
            node_at (files d) (parse_path filepath) <> Some Directory)
         generated_paths.
Proof.
  intros Hwf. rewrite generate_repo_fst.
  set (d0 := Disk (files d) (stdout d ++ [Opening])).
  destruct (create_directory_structure_only_adds_directories_aux d0 Hwf)
    as (_ & _ & Hwf1).
  destruct (create_directory_structure_succeeds_iff_aux d0 Hwf)
    as (Hiff & Hdirs).
  assert (Hframe : forall filepath,
    filepath ∈ generated_paths ->
    node_at (files (create_directory_structure d0).2) (parse_path filepath)
    = node_at (files d) (parse_path filepath)).
  { intros f Hf.
    pose proof (proj1 (Forall_forall _ _)
                  generated_files_are_off_the_directories f Hf) as Hoff.
    pose proof (proj1 (Forall_forall _ _) generated_paths_are_names f Hf)
      as Hname.
    pose proof (create_directories_frame directories (files d)
                  (stdout d ++ [Opening]) (parse_path f) Hwf Hoff) as E.
    cbv beta in Hname, Hoff.
    destruct (parse_path f); [congruence | apply E]. }
  cbn [files] in Hiff.
  destruct (create_directory_structure d0) as [[e |] d1];
    cbn [fst snd] in *.
  - split; [discriminate |]. intros [H _]. apply Hiff in H. discriminate.
  - destruct (Hdirs eq_refl) as [Hdirs1 _].
    destruct (generate_all_files_in_the_tree text (files d1)
                (stdout d1 ++ [Blank]) Hwf1 Hdirs1)
      as (_ & _ & Hiff2 & _).
    rewrite Hiff2. split.
    + intros H. split; [now apply Hiff |].
      apply Forall_forall. intros f Hf. rewrite <- (Hframe f Hf).
      now apply (proj1 (Forall_forall _ _) H f).
    + intros [_ H]. apply Forall_forall. intros f Hf. rewrite (Hframe f Hf).
      now apply (proj1 (Forall_forall _ _) H f).
Qed.

(** X22: the script can be run again.  After a run that succeeded, a
    second run with the same texts succeeds and leaves the files and
    directories exactly as they are. *)
Theorem generate_repo_is_idempotent text d :
  well_formed (files d) ->
  (generate_repo text d).1 = None ->
  (generate_repo text (generate_repo text d).2).1 = None /\
  files (generate_repo text (generate_repo text d).2).2
  = files (generate_repo text d).2.
Proof.
  intros Hwf Hok.
  destruct (generate_repo_success text d Hwf Hok) as (Hwf1 & Hdirs & Hfiles).
  set (d1 := (generate_repo text d).2) in *.
  rewrite generate_repo_fst, generate_repo_files.
  set (d0 := Disk (files d1) (stdout d1 ++ [Opening])).
  assert (Hlisted :
    Forall (fun directory =>
              node_at (files d1) (parse_path directory) = Some Directory)
           directories).
  { apply Forall_forall. intros s Hs. now apply (Hdirs s). }
  assert (Hno :
    Forall (fun directory =>
              no_file_on_the_way (files d1) (parse_path directory))
           directories).
  { eapply Forall_impl; [exact Hlisted |]. intros s Hs.
    now apply directory_has_no_file_on_the_way. }
  destruct (create_directories_makes_all directories (files d1)
              (stdout d1 ++ [Opening]) Hwf1 Hno) as (E & _).
  unfold create_directory_structure, d0. cbn [files stdout]. rewrite E.
  rewrite (make_all_dirs_existing directories _ Hwf1 Hlisted).
  rewrite generate_all_files_fst, generate_all_files_files.
  cbn [files stdout].
  rewrite (create_files_over_same (generated_files text) (files d1) _
             Hwf1 Hfiles).
  now split.
Qed.

(** ** The script on the example disks *)

Lemma well_formed_empty : well_formed ∅.
Proof.
  split; [apply lookup_empty |]. intros c above n H.
  rewrite lookup_empty in H. discriminate H.
Qed.

Lemma well_formed_top_level c n : well_formed {[ [c] := n ]}.
Proof.
  split; [now apply lookup_singleton_ne |]. intros c1 above n1 H.
  apply lookup_singleton_Some in H. destruct H as [E _].
  injection E as _ <-. reflexivity.
Qed.

Lemma no_file_on_the_way_empty p : no_file_on_the_way ∅ p.
Proof. intros q content _. rewrite lookup_empty. discriminate. Qed.

(** All the paths in the script are portable, and so plain. *)
Lemma listed_paths_are_portable :
  Forall (fun s => portable s = true /\ plain s = true)
         (directories ++ generated_paths).
Proof. refine (bool_decide_unpack _ _). vm_compute. exact I. Qed.


(** [create_file] for a file in [config], where [config] is a regular
    file. *)
Lemma create_file_failure_changes_nothing_witness :
  create_file "config/__init__.py" "" blocked_disk
  = (Some FileExistsError, blocked_disk) /\
  exists q old,
    on_the_way q (parent (parse_path "config/__init__.py")) /\
    files blocked_disk !! q = Some (File old).
Proof.
  assert (H : create_file "config/__init__.py" "" blocked_disk
              = (Some FileExistsError, blocked_disk)) by evaluated.
  split; [exact H |].
  destruct (create_file_failure_changes_nothing
              "config/__init__.py" "" blocked_disk _ _
              (well_formed_top_level _ _) eq_refl H)
    as [_ [[_ Hd] | (q & old & Hq & Hf & _)]].
  - vm_compute in Hd. discriminate Hd.
  - now exists q, old.
Defined.


(** [create_directory_structure] on an empty disk. *)
Lemma create_directory_structure_succeeds_iff_witness :
  fst (create_directory_structure empty_disk) = None /\
  node_at (files (snd (create_directory_structure empty_disk)))
          (parse_path ".github/workflows") = Some Directory /\
  node_at (files (snd (create_directory_structure empty_disk)))
          (parse_path ".github") = Some Directory /\
  stdout (snd (create_directory_structure empty_disk))
  = map CreatedDirectory directories.
Proof.
  destruct (create_directory_structure_succeeds_iff empty_disk
              well_formed_empty) as [Hiff Hthen].
  assert (Hok : fst (create_directory_structure empty_disk) = None).
  { apply Hiff. intros directory _. apply no_file_on_the_way_empty. }
  destruct (Hthen Hok) as [Hdirs Hout].
  assert (Hin : ".github/workflows" ∈ directories).
  { refine (bool_decide_unpack _ _). vm_compute. exact I. }
  split; [exact Hok |]. split; [| split; [| exact Hout]].
  - apply (Hdirs ".github/workflows" _ Hin). exists []. reflexivity.
  - apply (Hdirs ".github/workflows" _ Hin). exists ["workflows"].
    reflexivity.
Defined.

(** [create_directory_structure] where [config] is a regular file: it
    raises, and the file is still there. *)
Lemma create_directory_structure_only_adds_directories_witness :
  files (snd (create_directory_structure blocked_disk)) !! ["config"]
  = Some (File "notes") /\
  well_formed (files (snd (create_directory_structure blocked_disk))).
Proof.
  destruct (create_directory_structure_only_adds_directories blocked_disk
              (well_formed_top_level _ _)) as (_ & Hfiles & Hwf).
  split; [| exact Hwf].
  apply (proj2 (Hfiles ["config"] "notes")). evaluated.
Defined.

(** [create_directory_structure] twice on an empty disk. *)
Lemma create_directory_structure_is_idempotent_witness :
  exists d1,
    create_directory_structure empty_disk = (None, d1) /\
    create_directory_structure d1
    = (None, Disk (files d1) (stdout d1 ++ map CreatedDirectory directories)).
Proof.
  exists (snd (create_directory_structure empty_disk)).
  assert (H : create_directory_structure empty_disk
              = (None, snd (create_directory_structure empty_disk)))
    by evaluated.
  split; [exact H |].
  exact (create_directory_structure_is_idempotent empty_disk _
           well_formed_empty H).
Defined.



(** The script on an empty disk succeeds. *)
Lemma generate_repo_succeeds_iff_witness :
  (generate_repo placeholder_text empty_disk).1 = None.
Proof.
  apply (generate_repo_succeeds_iff placeholder_text empty_disk
           well_formed_empty).
  split.
  - intros directory _. apply no_file_on_the_way_empty.
  - apply Forall_forall. intros filepath Hin.
    pose proof (proj1 (Forall_forall _ _) generated_paths_are_names
                  filepath Hin) as Hname.
    cbv beta in Hname. cbn [files empty_disk].
    destruct (parse_path filepath) as [| c above]; [congruence |].
    cbn [node_at]. rewrite lookup_empty. discriminate.
Defined.

(** The script twice on an empty disk. *)
Lemma generate_repo_is_idempotent_witness :
  (generate_repo placeholder_text empty_disk).1 = None /\
  (generate_repo placeholder_text
     (generate_repo placeholder_text empty_disk).2).1 = None /\
  files (generate_repo placeholder_text
           (generate_repo placeholder_text empty_disk).2).2
  = files (generate_repo placeholder_text empty_disk).2.
Proof.
  assert (H : (generate_repo placeholder_text empty_disk).1 = None)
    by evaluated.
  split; [exact H |].
  exact (generate_repo_is_idempotent placeholder_text empty_disk
           well_formed_empty H).
Defined.

End GeneratorProperties.
